(** * Right-Track backend: extraction core of [server.py]

    A shallow embedding of the scraping, slug, cache and POI code of
    [src/server.py], with the properties of its specification.

    Conventions of the model.
    - Python [str] values are [string]s over the 8-bit repertoire (code
      points 0..255); [lower], [strip] and the regular-expression classes
      are the restrictions of Python's to that repertoire.
    - A parsed document (the [BeautifulSoup] object) is a tree of [node]s.
      Plain text leaves are [Text]; comments and script or style payloads,
      which [get_text] skips, are not part of the tree.
    - Code that can raise returns [Ok v] or [Raised]. Inside the
      [try/except Exception] block of a handler, [Raised] becomes a 500
      reply. The loop of [departures] has no operation that raises and
      returns its list as it is.
    - The definitions come first, the sample pages after them, the
      properties last. *)

From Stdlib Require Import Ascii QArith Qcanon.
From stdpp Require Import gmap strings list fin_maps pretty.

(** ** Text primitives *)

Module Text.

Definition code (c : ascii) : nat := nat_of_ascii c.

Definition in_range (lo hi : nat) (c : ascii) : bool :=
  (lo <=? code c) && (code c <=? hi).

(** [str.isspace] on code points below 256; it is also what [\s] and
    the default [strip()] use. *)
Definition is_space (c : ascii) : bool :=
  in_range 9 13 c || in_range 28 32 c || (code c =? 133) || (code c =? 160).

Definition is_digit (c : ascii) : bool := in_range 48 57 c.
Definition is_lower_az (c : ascii) : bool := in_range 97 122 c.

(** [str.lower] on one code point below 256: A-Z and the Latin-1
    capitals (all of 192..222 but the multiplication sign 215). *)
Definition lower_char (c : ascii) : ascii :=
  if in_range 65 90 c || (in_range 192 222 c && negb (code c =? 215))
  then ascii_of_nat (code c + 32)
  else c.

Fixpoint lower (s : string) : string :=
  match s with
  | EmptyString => EmptyString
  | String c s' => String (lower_char c) (lower s')
  end.

(** [s.replace(old, new)] for a one-character [old]. *)
Fixpoint replace_char (old : ascii) (new : string) (s : string) : string :=
  match s with
  | EmptyString => EmptyString
  | String c s' =>
      if Ascii.eqb c old then new +:+ replace_char old new s'
      else String c (replace_char old new s')
  end.

(** [re.sub("[^...]+", "", s)]: only the characters of the class stay. *)
Fixpoint keep (p : ascii -> bool) (s : string) : string :=
  match s with
  | EmptyString => EmptyString
  | String c s' => if p c then String c (keep p s') else keep p s'
  end.

Definition starts_with_char (c : ascii) (s : string) : bool :=
  match s with
  | String d _ => Ascii.eqb d c
  | EmptyString => false
  end.

(** [re.sub(c{2,}, c, s)]: every run of [c] shrinks to one [c]. *)
Fixpoint squeeze (c : ascii) (s : string) : string :=
  match s with
  | EmptyString => EmptyString
  | String d s' =>
      if Ascii.eqb d c && starts_with_char c s' then squeeze c s'
      else String d (squeeze c s')
  end.

Fixpoint lstrip (p : ascii -> bool) (s : string) : string :=
  match s with
  | EmptyString => EmptyString
  | String c s' => if p c then lstrip p s' else s
  end.

Fixpoint rstrip (p : ascii -> bool) (s : string) : string :=
  match s with
  | EmptyString => EmptyString
  | String c s' =>
      match rstrip p s' with
      | EmptyString => if p c then EmptyString else String c EmptyString
      | r => String c r
      end
  end.

(** [s.strip(chars)] with the character set given as a predicate. *)
Definition strip_by (p : ascii -> bool) (s : string) : string :=
  rstrip p (lstrip p s).

(** [s.strip()] *)
Definition strip : string -> string := strip_by is_space.

Fixpoint is_prefix (p s : string) : bool :=
  match p, s with
  | EmptyString, _ => true
  | String a p', String b s' => Ascii.eqb a b && is_prefix p' s'
  | String _ _, EmptyString => false
  end.

(** [sub in s] *)
Fixpoint contains (sub s : string) : bool :=
  is_prefix sub s ||
  match s with
  | EmptyString => false
  | String _ s' => contains sub s'
  end.

Fixpoint drop (n : nat) (s : string) : string :=
  match n, s with
  | O, _ => s
  | S n', String _ s' => drop n' s'
  | S _, EmptyString => EmptyString
  end.

(** The longest prefix whose characters satisfy [p], and the rest. *)
Fixpoint span (p : ascii -> bool) (s : string) : string * string :=
  match s with
  | EmptyString => (EmptyString, EmptyString)
  | String c s' =>
      if p c then let '(a, b) := span p s' in (String c a, b)
      else (EmptyString, s)
  end.

(** [s.split(sep)[0]] for a one-character [sep]. *)
Definition before_char (sep : ascii) (s : string) : string :=
  fst (span (fun c => negb (Ascii.eqb c sep)) s).

(** The [\S+] tokens of [s], as bs4 splits a [class] attribute. *)
Fixpoint tokens_go (cur : string) (s : string) : list string :=
  match s with
  | EmptyString => match cur with EmptyString => [] | _ => [String.rev cur] end
  | String c s' =>
      if is_space c
      then match cur with
           | EmptyString => tokens_go EmptyString s'
           | _ => String.rev cur :: tokens_go EmptyString s'
           end
      else tokens_go (String c cur) s'
  end.

Definition tokens : string -> list string := tokens_go EmptyString.

(** Python truthiness of a string. *)
Definition truthy (s : string) : bool :=
  match s with EmptyString => false | _ => true end.

(** Every character of [s] satisfies [p]. *)
Fixpoint all_chars (p : ascii -> bool) (s : string) : bool :=
  match s with
  | EmptyString => true
  | String c s' => p c && all_chars p s'
  end.

End Text.

(** ** Slug normalizer ([slugify]) *)

Definition hyphen : ascii := "-"%char.

Definition is_hyphen (c : ascii) : bool := Ascii.eqb c hyphen.

Definition alnum (c : ascii) : bool := Text.is_lower_az c || Text.is_digit c.

(** The class [[a-z0-9\-]]. *)
Definition slug_char (c : ascii) : bool := alnum c || is_hyphen c.

Definition slugify (text : string) : string :=
  let s := Text.lower text in
  let s := Text.replace_char ")" EmptyString (Text.replace_char "(" EmptyString s) in
  let s := Text.replace_char "&" "and"
             (Text.replace_char " " "-" (Text.replace_char "/" "-" s)) in
  let s := Text.keep slug_char s in
  let s := Text.strip_by is_hyphen (Text.squeeze hyphen s) in
  s.

(** The language of [^[a-z0-9]+(-[a-z0-9]+)*$], as the automaton of the
    expression: [Fresh] before the first run, [InRun] inside a run of
    [[a-z0-9]], [AfterHyphen] right after a separating hyphen. *)
Inductive slug_state := Fresh | InRun | AfterHyphen.

Fixpoint slug_accepts (q : slug_state) (s : string) : bool :=
  match s with
  | EmptyString => match q with InRun => true | _ => false end
  | String c s' =>
      if alnum c then slug_accepts InRun s'
      else if is_hyphen c
           then match q with InRun => slug_accepts AfterHyphen s' | _ => false end
           else false
  end.

Definition slug_re (s : string) : bool := slug_accepts Fresh s.

Definition valid_slug (s : string) : Prop :=
  s = EmptyString ∨ slug_re s = true.

(** The same language in the words of the expression: one or more
    non-empty runs of [[a-z0-9]], joined by single hyphens. *)
Fixpoint hyphen_tails (runs : list string) : string :=
  match runs with
  | [] => EmptyString
  | r :: rest => String hyphen (r +:+ hyphen_tails rest)
  end.

Definition join_hyphen (runs : list string) : string :=
  match runs with
  | [] => EmptyString
  | r :: rest => r +:+ hyphen_tails rest
  end.

Definition is_run (r : string) : Prop :=
  r ≠ EmptyString ∧ Text.all_chars alnum r = true.

(** No two neighbouring hyphens: what [re.sub("-{2,}", "-", s)] leaves. *)
Fixpoint single_hyphens (s : string) : bool :=
  match s with
  | EmptyString => true
  | String d s' =>
      negb (is_hyphen d && Text.starts_with_char hyphen s') && single_hyphens s'
  end.

(** ** Results of code that may raise *)

Inductive result (A : Type) : Type :=
| Ok (a : A)
| Raised.

Arguments Ok {A} a.
Arguments Raised {A}.

#[global] Instance result_ret : MRet result := fun A a => Ok a.

#[global] Instance result_bind : MBind result := fun A B k r =>
  match r with
  | Ok a => k a
  | Raised => Raised
  end.

(** [l[i]]: negative indices count from the end, anything out of range
    raises [IndexError]. *)
Definition py_index {A : Type} (l : list A) (i : Z) : result A :=
  let n := Z.of_nat (length l) in
  let j := if (i <? 0)%Z then (i + n)%Z else i in
  if (0 <=? j)%Z && (j <? n)%Z
  then match l !! Z.to_nat j with
       | Some a => Ok a
       | None => Raised
       end
  else Raised.

(** [range(start, stop, step)] for a positive [step]. *)
Definition py_range (start stop step : Z) : list Z :=
  if (0 <? step)%Z
  then (fun k : nat => (start + Z.of_nat k * step)%Z)
         <$> seq 0 (Z.to_nat ((stop - start + step - 1) / step))
  else [].

(** A [for] loop whose body appends to a list and may raise. *)
Fixpoint for_each {A B : Type} (body : A -> result (list B))
    (l : list A) (acc : list B) : result (list B) :=
  match l with
  | [] => Ok acc
  | x :: l' =>
      match body x with
      | Ok ys => for_each body l' (acc ++ ys)
      | Raised => Raised
      end
  end.

(** ** Parsed documents *)

#[warnings="-register-all"]
Inductive node : Type :=
| Text (s : string)
| Elem (name : string) (attrs : gmap string string) (children : list node).

Module Dom.

Definition children (n : node) : list node :=
  match n with
  | Text _ => []
  | Elem _ _ cs => cs
  end.

Definition is_tag (nm : string) (n : node) : bool :=
  match n with
  | Text _ => false
  | Elem nm' _ _ => String.eqb nm' nm
  end.

(** [tag.get(k)] *)
Definition attr (k : string) (n : node) : option string :=
  match n with
  | Text _ => None
  | Elem _ at_ _ => at_ !! k
  end.

(** [tag.has_attr(k)] *)
Definition has_attr (k : string) (n : node) : bool :=
  match attr k n with Some _ => true | None => false end.

(** The value of [tag["class"]]: the whitespace-separated tokens. *)
Definition classes (n : node) : list string :=
  match attr "class" n with
  | Some v => Text.tokens v
  | None => []
  end.

Definition has_class (c : string) (n : node) : bool :=
  existsb (String.eqb c) (classes n).

(** [[k*="sub"]] *)
Definition attr_contains (k sub : string) (n : node) : bool :=
  match attr k n with
  | Some v => Text.contains sub v
  | None => false
  end.

(** All nodes below [n], in document order. *)
Fixpoint descendants (n : node) : list node :=
  match n with
  | Text _ => []
  | Elem _ _ cs =>
      (fix go (l : list node) : list node :=
         match l with
         | [] => []
         | c :: rest => c :: descendants c ++ go rest
         end) cs
  end.

(** The text leaves below [n], in document order. *)
Definition strings (n : node) : list string :=
  omap (fun d => match d with Text s => Some s | Elem _ _ _ => None end)
       (descendants n).

Definition join (l : list string) : string :=
  foldr String.append EmptyString l.

(** [tag.text], that is [tag.get_text()]. *)
Definition text (n : node) : string := join (strings n).

(** [tag.get_text(strip=True)]: every leaf is stripped, the empty ones
    are dropped, the rest is concatenated. *)
Definition get_text_strip (n : node) : string :=
  join (List.filter Text.truthy (Text.strip <$> strings n)).

(** [tag.find_all(nm)] *)
Definition find_all (nm : string) (n : node) : list node :=
  List.filter (is_tag nm) (descendants n).

(** [tag.find_all(nm, recursive=False)] *)
Definition find_children (nm : string) (n : node) : list node :=
  List.filter (is_tag nm) (children n).

(** [tag.find_all(nm, k=True)] *)
Definition find_all_with_attr (nm k : string) (n : node) : list node :=
  List.filter (fun d => is_tag nm d && has_attr k d) (descendants n).

(** An element together with what the code reaches from it:
    [.parent] and [.next_siblings]. *)
Record located := Located {
  here : node;
  parent : node;
  next_siblings : list node
}.

(** All nodes below [p] in document order, each with its parent and the
    siblings after it. *)
Fixpoint walk (p : node) : list located :=
  match p with
  | Text _ => []
  | Elem _ _ cs =>
      (fix go (l : list node) : list located :=
         match l with
         | [] => []
         | c :: rest => Located c p rest :: walk c ++ go rest
         end) cs
  end.

(** [soup.select(sel)] for a selector [sel] on one element. *)
Definition select_located (sel : node -> bool) (soup : node) : list located :=
  List.filter (fun l => sel (here l)) (walk soup).

(** [tag.select(sel)] when only the elements are used. *)
Definition select (sel : node -> bool) (n : node) : list node :=
  List.filter sel (descendants n).

(** [tag.select_one(sel)] *)
Definition select_one (sel : node -> bool) (n : node) : option node :=
  head (select sel n).

(** [soup.select("A D")], the descendant combinator: the elements
    matching [d] that have a proper ancestor matching [a], in document
    order. [inside] tells whether such an ancestor was passed. *)
Fixpoint select_under (a d : node -> bool) (inside : bool) (n : node)
    : list node :=
  match n with
  | Text _ => []
  | Elem _ _ cs =>
      let inside' := inside || a n in
      (if inside && d n then [n] else []) ++
      (fix go (l : list node) : list node :=
         match l with
         | [] => []
         | c :: rest => select_under a d inside' c ++ go rest
         end) cs
  end.

(** [tag.find_next_sibling(...)] with the criterion [p]. *)
Definition find_next_sibling (p : node -> bool) (l : located) : option node :=
  head (List.filter p (next_siblings l)).

End Dom.

(** ** Station search ([station_search], the body of its [try] block) *)

Record StationMatch := {
  sm_id : string;
  sm_code : string;
  sm_name : string;
  sm_division : string;
  sm_full : string;
  sm_location : string
}.

(** [soup.select("table.dropdowntable tr")] *)
Definition select_dropdown_rows (soup : node) : list node :=
  Dom.select_under
    (fun n => Dom.is_tag "table" n && Dom.has_class "dropdowntable" n)
    (Dom.is_tag "tr") false soup.

(** [cell.text.strip()] *)
Definition cell_text (n : node) : string := Text.strip (Dom.text n).

(** One turn of the loop of [station_search], at index [i]. *)
Definition station_pair (rows : list node) (i : Z) : result (list StationMatch) :=
  row_main ← py_index rows i;
  row_sub ← py_index rows (i + 1)%Z;
  let main := Dom.find_all "td" row_main in
  let sub := Dom.find_all "td" row_sub in
  if (length main <? 5) || (length sub <? 3) then Ok []
  else
    c0 ← py_index main 0;
    c1 ← py_index main 1;
    c2 ← py_index main 2;
    c3 ← py_index main 3;
    c4 ← py_index main 4;
    e2 ← py_index sub 2;
    Ok [ {| sm_id := cell_text c0;
            sm_code := cell_text c1;
            sm_name := cell_text c2;
            sm_division := cell_text c3;
            sm_full := cell_text c4;
            sm_location := cell_text e2 |} ].

Definition station_rows (rows : list node) : result (list StationMatch) :=
  for_each (station_pair rows)
    (py_range 0 (Z.max 0 (Z.of_nat (length rows) - 2)) 2) [].

Definition station_search (soup : node) : result (list StationMatch) :=
  station_rows (select_dropdown_rows soup).

(** What the specification says of a row pair, in its words: the match
    made of the first five cells of the primary row and the third cell
    of the secondary row, nothing when a row is too short. *)
Definition station_match_of (main sub : list node) : list StationMatch :=
  match main, sub with
  | c0 :: c1 :: c2 :: c3 :: c4 :: _, _ :: _ :: e2 :: _ =>
      [ {| sm_id := cell_text c0;
           sm_code := cell_text c1;
           sm_name := cell_text c2;
           sm_division := cell_text c3;
           sm_full := cell_text c4;
           sm_location := cell_text e2 |} ]
  | _, _ => []
  end.

(** The walk over the rows two at a time, with the bound of the loop: a
    pair is read only while a further row follows it. *)
Fixpoint examined_pairs (rows : list node) : list StationMatch :=
  match rows with
  | row_main :: row_sub :: rest =>
      match rest with
      | [] => []
      | _ :: _ =>
          station_match_of (Dom.find_all "td" row_main) (Dom.find_all "td" row_sub)
          ++ examined_pairs rest
      end
  | _ => []
  end.

Definition well_formed_pair (row_main row_sub : node) : Prop :=
  5 ≤ length (Dom.find_all "td" row_main) ∧
  3 ≤ length (Dom.find_all "td" row_sub).

Definition truncated_pair (row_main row_sub : node) : Prop :=
  length (Dom.find_all "td" row_sub) < 3.

(** ** Departures ([departures]) *)

Record DepartureRecord := {
  dr_train_no : string;
  dr_name : string;
  dr_type : option string;
  dr_zone : option string;
  dr_platform : option string;
  dr_from : option string;
  dr_departure_time : option string;
  dr_to : option string;
  dr_arrival_time : option string;
  dr_train_url : option string
}.

(** [dest = str(data.get("dest", "")).strip() or "0"], for a [dest] that
    is missing or a JSON string. *)
Definition normalize_dest (raw : option string) : string :=
  let d := Text.strip (default EmptyString raw) in
  if Text.truthy d then d else "0".

(** The test [dest != "0"] that picks the branch of the cell layout. *)
Definition with_destination (dest : string) : bool :=
  negb (String.eqb dest "0").

Definition timetable_marker : string := "/train/timetable/".

(** [re.search(r"/train/timetable/([^/]+)/(\d+)", href)] tried at the
    start of [s]: the two groups. The slug group is the whole run of
    non-slash characters (a shorter one is not followed by a slash), the
    identifier group the whole run of digits. *)
Definition timetable_match_here (s : string) : option (string * string) :=
  if Text.is_prefix timetable_marker s then
    let rest := Text.drop (String.length timetable_marker) s in
    let '(slug, rest1) := Text.span (fun c => negb (Ascii.eqb c "/")) rest in
    match slug, rest1 with
    | String _ _, String _ rest2 =>
        let '(digits, _) := Text.span Text.is_digit rest2 in
        if Text.truthy digits then Some (slug, digits) else None
    | _, _ => None
    end
  else None.

(** The leftmost match of the pattern in [s]. *)
Fixpoint timetable_search (s : string) : option (string * string) :=
  match timetable_match_here s with
  | Some m => Some m
  | None =>
      match s with
      | EmptyString => None
      | String _ s' => timetable_search s'
      end
  end.

Definition href_has_marker (a : node) : bool :=
  Dom.attr_contains "href" timetable_marker a.

(** The anchor of the block that points at a timetable: the loop over
    [block.find_all("a", href=True)], then the [select_one] fallback. *)
Definition find_name_anchor (block : node) : option node :=
  match head (List.filter href_has_marker (Dom.find_all_with_attr "a" "href" block)) with
  | Some a => Some a
  | None =>
      Dom.select_one (fun n => Dom.is_tag "a" n && href_has_marker n) block
  end.

(** The groups of the pattern in the anchor's [href], when it matches. *)
Definition anchor_match (name_anchor : option node) : option (string * string) :=
  a ← name_anchor;
  timetable_search (default EmptyString (Dom.attr "href" a)).

(** [find_next_sibling("div", class_="reg trnsumm")]: a [div] whose class
    tokens, joined by one space, read [reg trnsumm]. *)
Definition is_trnsumm (n : node) : bool :=
  Dom.is_tag "div" n &&
  bool_decide (Dom.classes n = ["reg"; "trnsumm"]).

(** Python truthiness of an optional string ([None] and the empty string
    are false). *)
Definition truthy_opt (o : option string) : bool :=
  match o with
  | Some s => Text.truthy s
  | None => false
  end.

(** The variable [internal_id] when the cells are read. *)
Definition internal_id_of (blk : Dom.located) : option string :=
  let internal_id := snd <$> anchor_match (find_name_anchor (Dom.here blk)) in
  if truthy_opt internal_id then internal_id
  else
    match Dom.find_next_sibling is_trnsumm blk with
    | Some trnsumm =>
        match Dom.attr "t" trnsumm with
        | Some t => Some t
        | None => internal_id
        end
    | None => internal_id
    end.

(** [a["title"].split("|")[0].strip()] when [a] has a title. *)
Definition title_name (a : node) : option string :=
  t ← Dom.attr "title" a;
  Some (Text.strip (Text.before_char "|" t)).

Definition is_bordered (n : node) : bool :=
  Dom.is_tag "div" n &&
  (Dom.has_class "tdborder" n || Dom.has_class "tdborderhighlight" n
   || Dom.has_class "tdborderlast" n).

(** The list [cells] of the branch taken for [dest]. *)
Definition block_cells (dest : string) (block : node) : list node :=
  if with_destination dest
  then Dom.find_children "div" block
  else Dom.select is_bordered block.

(** The local function [t]. *)
Definition cell_at (cells : list node) (i : nat) : option string :=
  Dom.get_text_strip <$> cells !! i.

(** The variable [name] after the branch taken for [dest]. *)
Definition block_name (dest : string) (block : node) : option string :=
  let cells := block_cells dest block in
  if with_destination dest then
    match find_name_anchor block ≫= title_name with
    | Some nm => Some nm
    | None => cell_at cells 1
    end
  else
    match cells !! 1 with
    | Some name_cell =>
        match head (Dom.find_all_with_attr "a" "href" name_cell) ≫= title_name with
        | Some nm => Some nm
        | None => cell_at cells 1
        end
    | None => cell_at cells 1
    end.

(** One turn of the loop over the blocks: the record appended, or [None]
    when the turn ends in [continue]. *)
Definition departure_of_block (station_id dest : string) (blk : Dom.located)
    : option DepartureRecord :=
  let block := Dom.here blk in
  let timetable_slug := fst <$> anchor_match (find_name_anchor block) in
  let internal_id := internal_id_of blk in
  let cells := block_cells dest block in
  let t := cell_at cells in
  let train_no := t 0 in
  let name := block_name dest block in
  let ttype := t 2 in
  let zone := t 3 in
  let '(from_stn, platform, dep_time, to_stn, arr_time) :=
    if with_destination dest
    then (t 4, t 5, t 6, t 7, t 9)
    else (t 6, t 4, t 7, t 8, t 9) in
  match train_no, name with
  | Some train_no, Some name =>
      if Text.truthy train_no && Text.truthy name then
        let slug :=
          if truthy_opt timetable_slug then default EmptyString timetable_slug
          else slugify (name +:+ "-" +:+ train_no) in
        let train_url :=
          match internal_id with
          | Some id =>
              if Text.truthy id
              then Some (timetable_marker +:+ slug +:+ "/" +:+ id +:+ "/"
                         +:+ station_id +:+ "/" +:+ dest)
              else None
          | None => None
          end in
        Some {| dr_train_no := train_no;
                dr_name := name;
                dr_type := ttype;
                dr_zone := zone;
                dr_platform := platform;
                dr_from := from_stn;
                dr_departure_time := arr_time;
                dr_to := to_stn;
                dr_arrival_time := dep_time;
                dr_train_url := train_url |}
      else None
  | _, _ => None
  end.

(** [soup.select('div[style*="line-height:20px;"]')] *)
Definition select_blocks (soup : node) : list Dom.located :=
  Dom.select_located
    (fun n => Dom.is_tag "div" n && Dom.attr_contains "style" "line-height:20px;" n)
    soup.

(** The list [trains] built from the parsed page. *)
Definition departures (station_id dest : string) (soup : node)
    : list DepartureRecord :=
  omap (departure_of_block station_id dest) (select_blocks soup).

(** ** Timetable ([timetable], the body of its [try] block) *)

Record TimetableRow := {
  tt_code : string;
  tt_station_name : string;
  tt_arrives : string;
  tt_departs : string;
  tt_platform : string
}.

(** [soup.select('div[style*="width:35px;"]')] *)
Definition select_stop_markers (soup : node) : list Dom.located :=
  Dom.select_located
    (fun n => Dom.is_tag "div" n && Dom.attr_contains "style" "width:35px;" n)
    soup.

(** One turn of the loop of [timetable]. *)
Definition timetable_of_row (row : Dom.located) : result (list TimetableRow) :=
  let parent := Dom.parent row in
  let cells := Dom.find_children "div" parent in
  if length cells <? 17 then Ok []
  else
    c2 ← py_index cells 2;
    c3 ← py_index cells 3;
    c6 ← py_index cells 6;
    c8 ← py_index cells 8;
    c11 ← py_index cells 11;
    Ok [ {| tt_code := Dom.get_text_strip c2;
            tt_station_name := Dom.get_text_strip c3;
            tt_arrives := Dom.get_text_strip c6;
            tt_departs := Dom.get_text_strip c8;
            tt_platform := Dom.get_text_strip c11 |} ].

Definition timetable (soup : node) : result (list TimetableRow) :=
  for_each timetable_of_row (select_stop_markers soup) [].

(** The direct child cells of the container of a stop marker. *)
Definition stop_cells (m : Dom.located) : list node :=
  Dom.find_children "div" (Dom.parent m).

(** What the specification says of a stop, in its words: a row from the
    cells at positions 2, 3, 6, 8 and 11 when there are at least 17
    cells, nothing otherwise. *)
Definition stop_row_of (cells : list node) : list TimetableRow :=
  match cells !! 2, cells !! 3, cells !! 6, cells !! 8, cells !! 11 with
  | Some c2, Some c3, Some c6, Some c8, Some c11 =>
      if bool_decide (17 ≤ length cells)
      then [ {| tt_code := Dom.get_text_strip c2;
                tt_station_name := Dom.get_text_strip c3;
                tt_arrives := Dom.get_text_strip c6;
                tt_departs := Dom.get_text_strip c8;
                tt_platform := Dom.get_text_strip c11 |} ]
      else []
  | _, _, _, _, _ => []
  end.

(** ** Result cache ([CACHE], [cache_get], [cache_set])

    Clock readings are exact rationals, in seconds; the rounding of
    Python floats is not modelled. The dictionary [CACHE] is threaded
    through the calls. *)

Definition CACHE_TTL_SECONDS : Qc := Q2Qc (60 * 60 * 6).

Section Cache.

Context {V : Type}.

(** [cache_get] under a clock that reads [now]: the value returned and
    the dictionary afterwards. A stored pair is a non-empty tuple, so
    [not hit] holds for a missing key only. *)
Definition cache_get (now : Qc) (key : string) (cache : gmap string (Qc * V))
    : option V * gmap string (Qc * V) :=
  match cache !! key with
  | None => (None, cache)
  | Some (ts, value) =>
      if bool_decide (CACHE_TTL_SECONDS < now - ts)%Qc
      then (None, delete key cache)
      else (Some value, cache)
  end.

(** [cache_set] under a clock that reads [now]. *)
Definition cache_set (now : Qc) (key : string) (value : V)
    (cache : gmap string (Qc * V)) : gmap string (Qc * V) :=
  <[key := (now, value)]> cache.

End Cache.

(** ** Decoded JSON values

    What [json.loads] hands to the code: [None], a [bool], an [int], a
    [float], a [str], a [list], or a [dict] whose keys are strings.
    Floats are an abstract type [F]. *)

#[warnings="-register-all"]
Inductive json (F : Type) : Type :=
| JNull
| JBool (b : bool)
| JInt (n : Z)
| JFloat (x : F)
| JStr (s : string)
| JArr (items : list (json F))
| JObj (fields : gmap string (json F)).

Arguments JNull {F}.
Arguments JBool {F} b.
Arguments JInt {F} n.
Arguments JFloat {F} x.
Arguments JStr {F} s.
Arguments JArr {F} items.
Arguments JObj {F} fields.

(** The two operations on numbers that a decoded value brings in:
    [bool(x)] of a float, which is [x != 0], and [float(n)] of an
    [int], [None] when it raises [OverflowError]. *)
Class PyFloat (F : Type) := {
  float_truthy : F -> bool;
  int_float : Z -> option F
}.

(** A call that raises when it has no value to give. *)
Definition of_option {A : Type} (o : option A) : result A :=
  match o with
  | Some a => Ok a
  | None => Raised
  end.

Module Json.

Section Operations.

Context {F : Type} `{PyFloat F}.

(** [bool(v)], the test of [if not v]. *)
Definition truthy (v : json F) : bool :=
  match v with
  | JNull => false
  | JBool b => b
  | JInt n => negb (n =? 0)%Z
  | JFloat x => float_truthy x
  | JStr s => Text.truthy s
  | JArr items => match items with [] => false | _ :: _ => true end
  | JObj fields => negb (bool_decide (fields = ∅))
  end.

(** [v == k] for a string [k]: only an equal string is. *)
Definition is_str (k : string) (v : json F) : bool :=
  match v with
  | JStr s => String.eqb s k
  | _ => false
  end.

(** [k in v] for a string [k]: a key of a dict, an item of a list, a
    substring of a string; the other values raise [TypeError]. *)
Definition contains (k : string) (v : json F) : result bool :=
  match v with
  | JObj fields => Ok (bool_decide (is_Some (fields !! k)))
  | JArr items => Ok (existsb (is_str k) items)
  | JStr s => Ok (Text.contains k s)
  | JNull | JBool _ | JInt _ | JFloat _ => Raised
  end.

(** [v[k]] for a string [k]: [KeyError] on a dict without the key,
    [TypeError] on everything that is not a dict. *)
Definition item (k : string) (v : json F) : result (json F) :=
  match v with
  | JObj fields => of_option (fields !! k)
  | _ => Raised
  end.

(** [v[0]]: the first item of a list, the first character of a string;
    [IndexError] when they are empty, [KeyError] on a dict, whose keys
    are strings, and [TypeError] on the rest. *)
Definition first (v : json F) : result (json F) :=
  match v with
  | JArr (x :: _) => Ok x
  | JStr (String c _) => Ok (JStr (String c EmptyString))
  | _ => Raised
  end.

(** [v.get(k, d)] before the default [d] is put in: only a dict has
    the method, the other values raise [AttributeError]. *)
Definition get (k : string) (v : json F) : result (option (json F)) :=
  match v with
  | JObj fields => Ok (fields !! k)
  | _ => Raised
  end.

(** [float(v)]: a string is parsed, a [bool] counts as the [int] 1 or
    0, and [None], lists and dicts raise [TypeError]. *)
Definition to_float (py_float : string -> option F) (v : json F) : result F :=
  match v with
  | JStr s => of_option (py_float s)
  | JInt n => of_option (int_float n)
  | JBool b => of_option (int_float (if b then 1 else 0))
  | JFloat x => Ok x
  | JNull | JArr _ | JObj _ => Raised
  end.

(** [str(v)]; [float_str] is [str] of a float and [repr] is [str] of
    a list or a dict. *)
Definition str (float_str : F -> string) (repr : json F -> string)
    (v : json F) : string :=
  match v with
  | JStr s => s
  | JNull => "None"
  | JBool b => if b then "True" else "False"
  | JInt n => pretty n
  | JFloat x => float_str x
  | JArr _ | JObj _ => repr v
  end.

End Operations.

End Json.

(** ** Geocoding and points of interest

    Floats are an abstract type [F]: [zero] is [float(0)] and
    [py_float] is [float] on a string, [None] when it raises
    [ValueError]. *)

(** What [requests.get] does: it raises (timeout, connection error) or
    returns a response; [body] is [None] when the body is not JSON, so
    that [r.json()] raises. *)
Inductive http_outcome (B : Type) : Type :=
| Transport_failure
| Response (status_code : Z) (body : option B).

Arguments Transport_failure {B}.
Arguments Response {B} status_code body.

(** A JSON reply of a handler: the status and the [error] text. *)
Record error_reply := {
  reply_status : Z;
  reply_error : string
}.

Section Geo.

Context {F : Type} `{PyFloat F} (zero : F) (py_float : string -> option F).

Record coordinate := { lat : F; lon : F }.

(** [float(hit[k])]: a hit that is no dict, a missing key and a value
    that [float] does not take all raise. *)
Definition float_field (hit : json F) (k : string) : result F :=
  v ← Json.item k hit;
  Json.to_float py_float v.

(** [geocode_station], given what the lookup did; [arr] is whatever
    JSON value the geocoder sent. *)
Definition geocode_station (r : http_outcome (json F))
    : result (option coordinate) :=
  match r with
  | Transport_failure => Raised
  | Response status_code body =>
      if negb (status_code =? 200)%Z then Ok None
      else
        match body with
        | None => Raised
        | Some arr =>
            if negb (Json.truthy arr) then Ok None
            else
              hit ← Json.first arr;
              la ← float_field hit "lat";
              lo ← float_field hit "lon";
              Ok (Some {| lat := la; lon := lo |})
        end
  end.

(** The branch of [station_map] for a station name: the reply sent at
    once, or the centre of the spatial query. The call is outside any
    [try], so an exception of [geocode_station] leaves the handler. *)
Definition station_map_geocode (r : http_outcome (json F))
    : result (error_reply + coordinate) :=
  geo ← geocode_station r;
  match geo with
  | None => Ok (inl {| reply_status := 502; reply_error := "Geocoding failed" |})
  | Some g => Ok (inr g)
  end.

(** An element of the spatial result. Absent keys are [None]; the
    [center] object and the tags are dictionaries. *)
Record element := {
  el_id : option Z;
  el_type : option string;
  el_lat : option F;
  el_lon : option F;
  el_center : option (gmap string F);
  el_tags : option (gmap string string)
}.

Record POI := {
  poi_id : option Z;
  poi_osm_type : option string;
  poi_name : string;
  poi_type : string;
  poi_lat : F;
  poi_lon : F;
  poi_tags : gmap string string;
  poi_emergency : bool
}.

(** [", ".join(parts)] *)
Fixpoint join_comma (parts : list string) : string :=
  match parts with
  | [] => EmptyString
  | [p] => p
  | p :: rest => p +:+ ", " +:+ join_comma rest
  end.

Definition type_keys : list string :=
  ["railway"; "public_transport"; "amenity"; "office"; "building";
   "highway"; "entrance"].

(** [a or b] on optional strings, as [tags.get(..) or tags.get(..)]. *)
Definition or_else (a b : option string) : option string :=
  if truthy_opt a then a else b.

(** The variable [emergency] for a tag dictionary. *)
Definition emergency_of (tags : gmap string string) : bool :=
  let amenity := default EmptyString (tags !! "amenity") in
  let emergency := false in
  let emergency :=
    if Text.contains "police" amenity || Text.contains "hospital" amenity
    then true else emergency in
  let emergency :=
    if truthy_opt (tags !! "emergency") || truthy_opt (tags !! "emergency_phone")
       || truthy_opt (tags !! "contact:phone")
    then true else emergency in
  emergency.

(** One turn of the loop of [parse_overpass_result]. *)
Definition poi_of_element (el : element) : option POI :=
  let position :=
    if bool_decide (el_type el = Some "node")
    then Some (default zero (el_lat el), default zero (el_lon el))
    else
      match el_center el with
      | None => None
      | Some center =>
          if bool_decide (center = ∅) then None
          else Some (default zero (center !! "lat"),
                     default zero (center !! "lon"))
      end in
  '(la, lo) ← position;
  let tags :=
    match el_tags el with
    | Some tg => if bool_decide (tg = ∅) then ∅ else tg
    | None => ∅
    end in
  let name :=
    default EmptyString
      (or_else (or_else (tags !! "name") (tags !! "ref")) (tags !! "operator")) in
  let type_parts :=
    omap (fun k => (fun v => k +:+ "=" +:+ v) <$> tags !! k) type_keys in
  let type_str :=
    match type_parts with [] => "other" | _ => join_comma type_parts end in
  Some {| poi_id := el_id el;
          poi_osm_type := el_type el;
          poi_name := name;
          poi_type := type_str;
          poi_lat := la;
          poi_lon := lo;
          poi_tags := tags;
          poi_emergency := emergency_of tags |}.

(** [parse_overpass_result] on the list under ["elements"]. *)
Definition parse_overpass_result (elements : list element) : list POI :=
  omap poi_of_element elements.

End Geo.

(** ** Sample pages and payloads *)

Module Sample.

Definition td (s : string) : node := Elem "td" ∅ [Text s].

Definition primary_row (id code name division full : string) : node :=
  Elem "tr" ∅ [td id; td code; td name; td division; td full].

Definition secondary_row (location : string) : node :=
  Elem "tr" ∅ [td "-"; td "-"; td location].

Definition truncated_row : node := Elem "tr" ∅ [td "-"; td "-"].

Definition dropdown (rows : list node) : node :=
  Elem "[document]" ∅ [Elem "table" {[ "class" := "dropdowntable" ]} rows].

Definition pune : node :=
  primary_row " 1620 " "PUNE" "Pune Junction" "CR/Pune" "Pune Junction (PUNE)".

Definition pune_sub : node := secondary_row " Pune, Maharashtra ".

Definition daund : node :=
  primary_row "1710" "DD" "Daund Junction" "CR/Solapur" "Daund Junction (DD)".

Definition daund_sub : node := secondary_row "Daund, Maharashtra".

(** A result table that holds one well-formed pair and nothing else. *)
Definition doc_single_pair : node := dropdown [pune; pune_sub].

Definition doc_pair_then_row : node :=
  dropdown [pune; pune_sub; Elem "tr" ∅ []].

Definition doc_two_valid_one_truncated : node :=
  dropdown [pune; pune_sub; daund; daund_sub; pune; truncated_row].

Definition cell (s : string) : node :=
  Elem "div" {[ "class" := "tdborder" ]} [Text s].

Definition name_cell : node :=
  Elem "div" {[ "class" := "tdborder" ]}
    [Elem "a" (<[ "href" := "/train/timetable/deccan-queen-12124/1042/57/0" ]>
               {[ "title" := "Deccan Queen | Pune to Mumbai" ]})
       [Text "Deccan Queen"]].

Definition train_block : node :=
  Elem "div" {[ "style" := "line-height:20px;clear:both;" ]}
    [cell " 12124 "; name_cell; cell "SF"; cell "CR"; cell "c4"; cell "c5";
     cell "c6"; cell "c7"; cell "c8"; cell "c9"].

(** A block without a timetable anchor; its summary block follows. *)
Definition plain_block : node :=
  Elem "div" {[ "style" := "line-height:20px;" ]}
    [cell "11007"; cell "Deccan Express (Slip)"; cell "Exp"; cell "CR"].

Definition summary_block : node :=
  Elem "div" (<[ "t" := "2077" ]> {[ "class" := "reg trnsumm" ]}) [].

(** A block whose first cell is blank. *)
Definition blank_block : node :=
  Elem "div" {[ "style" := "line-height:20px;" ]} [cell " "; cell "x"].

(** A summary block whose [t] is no number, and a page on which it
    stands three nodes after the block it serves. *)
Definition lettered_summary_block : node :=
  Elem "div" (<[ "t" := "abc-not-a-number" ]> {[ "class" := "reg trnsumm" ]}) [].

Definition advert_block : node :=
  Elem "div" {[ "class" := "advert" ]} [Text "Book now"].

Definition far_summary_page : node :=
  Elem "[document]" ∅
    [plain_block; advert_block; Elem "p" ∅ []; lettered_summary_block].

Definition departures_page : node :=
  Elem "[document]" ∅
    [train_block; Text " "; blank_block; plain_block; Text " "; summary_block].


Definition deccan_queen_routed : DepartureRecord :=
  {| dr_train_no := "12124";
     dr_name := "Deccan Queen";
     dr_type := Some "SF";
     dr_zone := Some "CR";
     dr_platform := Some "c4";
     dr_from := Some "c6";
     dr_departure_time := Some "c9";
     dr_to := Some "c8";
     dr_arrival_time := Some "c7";
     dr_train_url := Some "/train/timetable/deccan-queen-12124/1042/57/0" |}.

Definition deccan_express_routed : DepartureRecord :=
  {| dr_train_no := "11007";
     dr_name := "Deccan Express (Slip)";
     dr_type := Some "Exp";
     dr_zone := Some "CR";
     dr_platform := None;
     dr_from := None;
     dr_departure_time := None;
     dr_to := None;
     dr_arrival_time := None;
     dr_train_url := Some "/train/timetable/deccan-express-slip-11007/2077/57/0" |}.

Definition stop_cell (s : string) : node := Elem "div" ∅ [Text s].

Definition stop_row (no code name arr dep pf : string) : node :=
  Elem "div" ∅
    [Elem "div" {[ "style" := "width:35px;text-align:right;" ]} [Text no];
     stop_cell "-"; stop_cell code; stop_cell name; stop_cell "-"; stop_cell "-";
     stop_cell arr; stop_cell "-"; stop_cell dep; stop_cell "-"; stop_cell "-";
     stop_cell pf; stop_cell "-"; stop_cell "-"; stop_cell "-"; stop_cell "-";
     stop_cell "-"].

Definition short_row : node :=
  Elem "div" ∅
    [Elem "div" {[ "style" := "width:35px;" ]} [Text "2"]; stop_cell "LNL"].

Definition timetable_page : node :=
  Elem "[document]" ∅
    [stop_row "1" "PUNE" "Pune Junction" "start" "07:15" "1"; short_row;
     stop_row "3" "CSMT" "Mumbai CSMT" "10:25" "end" "9"].

(** A float stand-in for the samples: no string converts. *)
Definition no_float (s : string) : option Qc := None.

(** The samples take rationals for floats. *)
#[global] Instance sample_numbers : PyFloat Qc :=
  {| float_truthy x := negb (bool_decide (x = 0%Qc));
     int_float n := Some (Q2Qc (inject_Z n)) |}.

Definition hospital_node : element (F := Qc) :=
  {| el_id := Some 11%Z;
     el_type := Some "node";
     el_lat := None;
     el_lon := None;
     el_center := None;
     el_tags := Some {[ "amenity" := "hospital" ]} |}.

Definition hospital_poi : POI (F := Qc) :=
  {| poi_id := Some 11%Z;
     poi_osm_type := Some "node";
     poi_name := EmptyString;
     poi_type := "amenity=hospital";
     poi_lat := 0%Qc;
     poi_lon := 0%Qc;
     poi_tags := {[ "amenity" := "hospital" ]};
     poi_emergency := true |}.

Definition bus_stop_node : element (F := Qc) :=
  {| el_id := Some 13%Z;
     el_type := Some "node";
     el_lat := None;
     el_lon := None;
     el_center := None;
     el_tags := Some {[ "amenity" := "bus_stop" ]} |}.

(** A bus stop that gives a telephone number. *)
Definition phone_node : element (F := Qc) :=
  {| el_id := Some 14%Z;
     el_type := Some "node";
     el_lat := None;
     el_lon := None;
     el_center := None;
     el_tags := Some (<[ "contact:phone" := "+91 20 2612 6575" ]>
                        {[ "amenity" := "bus_stop" ]}) |}.

(** A node whose [emergency] tag is present with an empty value. *)
Definition empty_emergency_node : element (F := Qc) :=
  {| el_id := Some 12%Z;
     el_type := Some "node";
     el_lat := None;
     el_lon := None;
     el_center := None;
     el_tags := Some {[ "emergency" := EmptyString ]} |}.

End Sample.

(** ** The handlers of the scraping endpoints

    The variable [data] of a handler is the value that
    [request.get_json(silent=True)] gives: the decoded body, or [None],
    here [JNull], when the body is not JSON. A handler gives [Raised]
    when an exception leaves it, which the three guards before the
    [try] block can cause. *)

(** What a handler sends back. *)
Inductive reply (A : Type) : Type :=
| Success (body : A)
| Failure (status : Z) (error : string)
| Crash.

Arguments Success {A} body.
Arguments Failure {A} status error.
Arguments Crash {A}.

(** [Success] is [jsonify(body)] with status 200, [Failure] is
    [jsonify({"error": error}), status], and [Crash] is the reply of an
    [except Exception as e] clause: status 500 with the text of [e]. *)
Definition reply_code {A : Type} (r : reply A) : Z :=
  match r with
  | Success _ => 200
  | Failure status _ => status
  | Crash => 500
  end.

(** What [requests.get(url, ...)] followed by [BeautifulSoup(r.text)]
    gives: an exception of the transport, or a status and the parsed
    page. *)
Inductive fetched : Type :=
| Fetch_failed
| Fetched (status_code : Z) (soup : node).

(** [r.raise_for_status()] raises for the statuses 400 to 599. *)
Definition raises_for_status (status_code : Z) : bool :=
  (400 <=? status_code)%Z && (status_code <? 600)%Z.

Definition BASE_URL : string := "https://indiarailinfo.com".

(** The [try] block shared by the three handlers: the fetch of [url],
    the status check, and the extraction [extract]. *)
Definition scrape {A : Type} (get : string -> fetched) (url : string)
    (extract : node -> result A) : reply A :=
  match get url with
  | Fetch_failed => Crash
  | Fetched status_code soup =>
      if raises_for_status status_code then Crash
      else match extract soup with
           | Ok results => Success results
           | Raised => Crash
           end
  end.

Definition station_search_url (query : string) : string :=
  BASE_URL +:+ "/shtml/list.shtml?LappGetStationList/" +:+ query +:+ "/0/1/0?".

Definition departures_url (station_id dest : string) : string :=
  BASE_URL +:+ "/search/" +:+ station_id +:+ "/0/" +:+ dest
  +:+ "?src=&dest=&locoClass=undefined&bedroll=undefined&".

Section Handlers.

Context {F : Type} `{PyFloat F}.
Context (float_str : F -> string) (repr : json F -> string).

(** The guard [if not data or k not in data], which answers 400, and
    after it [str(data[k])]: [Ok None] when the guard answers,
    [Raised] when the membership test or the subscript raises. *)
Definition required_field (data : json F) (k : string)
    : result (option string) :=
  if negb (Json.truthy data) then Ok None
  else
    present ← Json.contains k data;
    if negb present then Ok None
    else
      v ← Json.item k data;
      Ok (Some (Json.str float_str repr v)).

(** The view function [station_search]. *)
Definition station_search_handler (data : json F) (get : string -> fetched)
    : result (reply (list StationMatch)) :=
  field ← required_field data "q";
  match field with
  | None => Ok (Failure 400 "JSON body must contain 'q'")
  | Some q =>
      let query := Text.strip q in
      if negb (Text.truthy query) then Ok (Failure 400 "q cannot be empty")
      else Ok (scrape get (station_search_url query) station_search)
  end.

(** The view function [departures]. *)
Definition departures_handler (data : json F) (get : string -> fetched)
    : result (reply (list DepartureRecord)) :=
  field ← required_field data "id";
  match field with
  | None => Ok (Failure 400 "JSON body must contain 'id'")
  | Some id =>
      let station_id := Text.strip id in
      if negb (Text.truthy station_id) then Ok (Failure 400 "id cannot be empty")
      else
        raw ← Json.get "dest" data;
        let dest := normalize_dest (Json.str float_str repr <$> raw) in
        Ok (scrape get (departures_url station_id dest)
              (fun soup => Ok (departures station_id dest soup)))
  end.

(** The view function [timetable]. *)
Definition timetable_handler (data : json F) (get : string -> fetched)
    : result (reply (list TimetableRow)) :=
  field ← required_field data "train_url";
  match field with
  | None => Ok (Failure 400 "JSON must contain 'train_url'")
  | Some u =>
      let train_url := Text.strip u in
      if negb (Text.is_prefix timetable_marker train_url)
      then Ok (Failure 400 "Invalid train_url format")
      else Ok (scrape get (BASE_URL +:+ train_url) timetable)
  end.

End Handlers.

(** ** The map endpoint ([build_overpass_query], [station_map])

    As before floats are an abstract type [F]; [float_str] is the text
    an f-string gives a float and [py_int] is [int] on a string, [None]
    when it raises [ValueError]. *)

(** [int(x)] on a clock reading: the fraction is cut off. *)
Definition int_of_time (t : Qc) : Z := Z.quot (Qnum t) (Zpos (Qden t)).

Definition newline : string := String "010"%char EmptyString.

Definition double_quote : string := String "034"%char EmptyString.

Section StationMap.

Context {F : Type} `{PyFloat F} (zero : F) (py_float : string -> option F).
Context (float_str : F -> string) (py_int : string -> option Z).

(** The filter [nwr(around:{radius},{lat},{lon})] that opens a clause. *)
Definition around_clause (lat lon : F) (radius : Z) : string :=
  "  nwr(around:" +:+ pretty radius +:+ "," +:+ float_str lat +:+ ","
  +:+ float_str lon +:+ ")".

Definition build_overpass_query (lat lon : F) (radius : Z) : string :=
  let nwr := around_clause lat lon radius in
  newline +:+ "[out:json][timeout:25];" +:+ newline
  +:+ "(" +:+ newline
  +:+ nwr +:+ "[railway~" +:+ double_quote
      +:+ "station|platform|halt|subway_entrance" +:+ double_quote +:+ "];"
      +:+ newline
  +:+ nwr +:+ "[public_transport=platform];" +:+ newline
  +:+ nwr +:+ "[amenity~" +:+ double_quote
      +:+ "police|clinic|hospital|toilets|doctors|pharmacy" +:+ double_quote
      +:+ "];" +:+ newline
  +:+ nwr +:+ "[office~" +:+ double_quote +:+ "station" +:+ double_quote
      +:+ "];" +:+ newline
  +:+ nwr +:+ "[building=station];" +:+ newline
  +:+ nwr +:+ "[entrance];" +:+ newline
  +:+ nwr +:+ "[railway=signal];" +:+ newline
  +:+ nwr +:+ "[highway=bus_stop];" +:+ newline
  +:+ ");" +:+ newline
  +:+ "out center;" +:+ newline.

(** The dictionary [result] of [station_map]. [mr_cached] tells whether
    the key [cached] was set, which a cache hit does. *)
Record map_result := {
  mr_success : bool;
  mr_center : coordinate (F := F);
  mr_radius : Z;
  mr_source : string;
  mr_pois_count : nat;
  mr_pois : list (POI (F := F));
  mr_queried_at : Z;
  mr_cached : bool
}.

(** [cached["cached"] = True] *)
Definition mark_cached (r : map_result) : map_result :=
  {| mr_success := mr_success r;
     mr_center := mr_center r;
     mr_radius := mr_radius r;
     mr_source := mr_source r;
     mr_pois_count := mr_pois_count r;
     mr_pois := mr_pois r;
     mr_queried_at := mr_queried_at r;
     mr_cached := true |}.

(** The three readings of [time.time()] one request can make: in
    [cache_get], for [queried_at], and in [cache_set]. *)
Record clock := {
  t_read : Qc;
  t_query : Qc;
  t_write : Qc
}.

(** The query-string parameters after [.get(k, "").strip()]. *)
Definition arg (args : gmap string string) (k : string) : string :=
  Text.strip (default EmptyString (args !! k)).

(** [cache_key] *)
Definition cache_key_of (station lat lon : string) (radius : Z) : string :=
  if Text.truthy station
  then "station:" +:+ Text.lower station +:+ ":" +:+ pretty radius
  else "coords:" +:+ lat +:+ ":" +:+ lon +:+ ":" +:+ pretty radius.

(** The centre of the search on a cache miss: an early reply, or the
    coordinates. [geocoder] is what the lookup of a name does. *)
Definition resolve_center (station lat lon : string)
    (geocoder : string -> http_outcome (json F))
    : result (error_reply + coordinate) :=
  if negb (Text.truthy station) then
    match py_float lat with
    | None => Ok (inl {| reply_status := 400; reply_error := "Invalid lat/lon" |})
    | Some lat_f =>
        match py_float lon with
        | None => Ok (inl {| reply_status := 400; reply_error := "Invalid lat/lon" |})
        | Some lon_f => Ok (inr {| lat := lat_f; lon := lon_f |})
        end
    end
  else station_map_geocode py_float (geocoder station).

(** The [try] block of [station_map]: the reply and the cache after it.
    [overpass] is what the post of a query does; the body of a reply is
    a JSON object, given by the list under [elements] when it has one. *)
Definition query_overpass (now : clock) (cache_key : string)
    (center : coordinate) (radius : Z)
    (overpass : string -> http_outcome (option (list element)))
    (cache : gmap string (Qc * map_result))
    : reply map_result * gmap string (Qc * map_result) :=
  let q := build_overpass_query (lat center) (lon center) radius in
  match overpass q with
  | Transport_failure => (Crash, cache)
  | Response status_code body =>
      if negb (status_code =? 200)%Z
      then (Failure 502 ("Overpass returned " +:+ pretty status_code), cache)
      else
        match body with
        | None => (Crash, cache)
        | Some data =>
            let pois := parse_overpass_result zero (default [] data) in
            let result :=
              {| mr_success := true;
                 mr_center := center;
                 mr_radius := radius;
                 mr_source := "openstreetmap/overpass";
                 mr_pois_count := length pois;
                 mr_pois := pois;
                 mr_queried_at := int_of_time (t_query now);
                 mr_cached := false |} in
            (Success result, cache_set (t_write now) cache_key result cache)
        end
  end.

(** The view function [station_map]: [Raised] when an exception leaves
    it, else the reply and the cache afterwards. The dictionary a hit
    returns is the one the cache holds, so marking it marks the entry. *)
Definition station_map (args : gmap string string) (now : clock)
    (geocoder : string -> http_outcome (json F))
    (overpass : string -> http_outcome (option (list element)))
    (cache : gmap string (Qc * map_result))
    : result (reply map_result * gmap string (Qc * map_result)) :=
  let station := arg args "station" in
  let lat := arg args "lat" in
  let lon := arg args "lon" in
  radius ← match py_int (default "700" (args !! "radius")) with
           | Some n => Ok n
           | None => Raised
           end;
  if negb (Text.truthy station) && (negb (Text.truthy lat) || negb (Text.truthy lon))
  then Ok (Failure 400 "Provide station name or lat & lon", cache)
  else
    let cache_key := cache_key_of station lat lon radius in
    let '(cached, cache) := cache_get (t_read now) cache_key cache in
    match cached with
    | Some hit =>
        Ok (Success (mark_cached hit),
            alter (fun entry => (entry.1, mark_cached entry.2)) cache_key cache)
    | None =>
        center ← resolve_center station lat lon geocoder;
        match center with
        | inl e => Ok (Failure (reply_status e) (reply_error e), cache)
        | inr c => Ok (query_overpass now cache_key c radius overpass cache)
        end
    end.

End StationMap.

(** ** The AI endpoint ([ask_ai]) *)

(** What reading [resp.text] does on an object that is not a dict. *)
Inductive text_attribute : Type :=
| No_text
| Text_raises
| Text_is (s : string).

(** What [model.generate_content] returns: an object with its [text]
    attribute, or a dict with the list under [candidates] when it has
    one; [repr] is [str(resp)]. *)
Inductive ai_response : Type :=
| Ai_object (text : text_attribute) (repr : string)
| Ai_dict (candidates : option (list (gmap string string))) (repr : string).

(** The text taken from the response. *)
Definition response_text (resp : ai_response) : result string :=
  match resp with
  | Ai_object Text_raises _ => Raised
  | Ai_object (Text_is s) repr => Ok (if Text.truthy s then s else repr)
  | Ai_object No_text repr => Ok repr
  | Ai_dict (Some candidates) _ =>
      match candidates with
      | [] => Ok EmptyString
      | c :: _ => Ok (default EmptyString (c !! "content"))
      end
  | Ai_dict None repr => Ok repr
  end.

(** [GEMINI_API_KEY]: the first of the three variables that is set to a
    non-empty value. *)
Definition gemini_api_key (env : gmap string string) : option string :=
  let or_else a b := if truthy_opt a then a else b in
  or_else (or_else (env !! "GEMINI_API_KEY") (env !! "GENAI_API_KEY"))
          (env !! "GOOGLE_API_KEY").

(** [model is not None] *)
Definition ai_configured (env : gmap string string) (has_genai : bool) : bool :=
  truthy_opt (gemini_api_key env) && has_genai.

(** The view function [ask_ai]. Its error replies carry [ok: False]
    beside the error text; [generate] is what the call of the model
    does. As in the other handlers the guard on [data] stands before
    the [try] block. *)
Definition ask_ai {F : Type} `{PyFloat F} (float_str : F -> string)
    (repr : json F -> string) (env : gmap string string) (has_genai : bool)
    (data : json F) (generate : string -> result ai_response)
    : result (reply string) :=
  field ← required_field float_str repr data "query";
  match field with
  | None => Ok (Failure 400 "JSON must contain 'query'")
  | Some q =>
      let query := Text.strip q in
      if negb (Text.truthy query) then Ok (Failure 400 "query cannot be empty")
      else if negb (ai_configured env has_genai)
      then Ok (Failure 502
                 "Gemini client not configured on server. Set GEMINI_API_KEY and install google-generativeai package.")
      else
        match generate query ≫= response_text with
        | Ok text => Ok (Success text)
        | Raised => Ok Crash
        end
  end.

(** ** Predicates and samples for the further properties *)

(** A character that leaves a trace in a slug: a letter of A-Z or a-z,
    a digit, or the ampersand. *)
Definition slug_letter (c : ascii) : bool :=
  Text.in_range 65 90 c || Text.is_lower_az c || Text.is_digit c
  || Ascii.eqb c "&".

(** The class [[^/]]. *)
Definition no_slash (c : ascii) : bool := negb (Ascii.eqb c "/").

Definition not_equals (c : ascii) : bool := negb (Ascii.eqb c "=").

(** The request names a place: the negation of the test
    [not station and (not lat or not lon)]. *)
Definition locates (args : gmap string string) : bool :=
  Text.truthy (arg args "station")
  || (Text.truthy (arg args "lat") && Text.truthy (arg args "lon")).

(** The bodies on which the guard for the key [k] answers 400: a falsy
    value, a dict without the key, a string in which [k] does not
    occur, a list without the string [k]. *)
Definition lacks_field {F : Type} `{PyFloat F} (k : string) (data : json F)
    : Prop :=
  Json.truthy data = false ∨
  (∃ fields, data = JObj fields ∧ fields !! k = None) ∨
  (∃ s, data = JStr s ∧ Text.contains k s = false) ∨
  (∃ items, data = JArr items ∧ JStr k ∉ items).

(** The bodies on which the guard for the key [k] raises [TypeError]:
    a truthy number or [bool], where the membership test raises, and a
    string in which [k] occurs or a list with the string [k], where the
    subscript raises. *)
Definition breaks_guard {F : Type} `{PyFloat F} (k : string) (data : json F)
    : Prop :=
  Json.truthy data = true ∧
  ((∃ n, data = JInt n) ∨ (∃ x, data = JFloat x) ∨ (∃ b, data = JBool b) ∨
   (∃ s, data = JStr s ∧ Text.contains k s = true) ∨
   (∃ items, data = JArr items ∧ JStr k ∈ items)).

(** The cache key of a request. *)
Abbreviation request_key args radius :=
  (cache_key_of (arg args "station") (arg args "lat") (arg args "lon") radius).

Module Fixture.

Definition train_located : Dom.located :=
  Dom.Located Sample.train_block Sample.departures_page [].

(** The first and the third block of [Sample.departures_page], and the
    block of [Sample.far_summary_page], as the page walk finds them. *)
Definition queen_located : Dom.located :=
  Dom.Located Sample.train_block Sample.departures_page
    [Text " "; Sample.blank_block; Sample.plain_block; Text " ";
     Sample.summary_block].

Definition express_located : Dom.located :=
  Dom.Located Sample.plain_block Sample.departures_page
    [Text " "; Sample.summary_block].

Definition far_located : Dom.located :=
  Dom.Located Sample.plain_block Sample.far_summary_page
    [Sample.advert_block; Elem "p" ∅ []; Sample.lettered_summary_block].

Definition sample_int (s : string) : option Z :=
  if String.eqb s "700" then Some 700%Z else None.

Definition sample_float (s : string) : option Qc :=
  if String.eqb s "18.5" then Some (Q2Qc (37 # 2))
  else if String.eqb s "73.8" then Some (Q2Qc (369 # 5))
  else None.

Definition sample_float_str (x : Qc) : string :=
  pretty (Qnum x) +:+ "/" +:+ pretty (Zpos (Qden x)).

Definition pune_hit : json Qc :=
  JObj (<[ "lat" := JStr "18.5" ]> {[ "lon" := JStr "73.8" ]}).

Definition geocoder (station : string) : http_outcome (json Qc) :=
  Response 200 (Some (JArr [pune_hit])).

Definition overpass (q : string)
    : http_outcome (option (list (element (F := Qc)))) :=
  Response 200 (Some (Some [Sample.hospital_node])).

(** Upstream services that are down. *)
Definition geocoder_down (station : string) : http_outcome (json Qc) :=
  Transport_failure.

Definition overpass_down (q : string)
    : http_outcome (option (list (element (F := Qc)))) :=
  Transport_failure.

(** [str] of a list or a dict is not needed by the samples. *)
Definition sample_repr (v : json Qc) : string := EmptyString.

(** A body that sends a link of the departures page back. *)
Definition link_body : json Qc :=
  JObj {[ "train_url" := JStr "/train/timetable/deccan-queen-12124/1042/57/0" ]}.

Definition args_pune : gmap string string := {[ "station" := " Pune " ]}.

Definition args_pune_upper : gmap string string := {[ "station" := "PUNE" ]}.

Definition clock_first : clock :=
  {| t_read := Q2Qc 100; t_query := Q2Qc 101; t_write := Q2Qc 102 |}.

Definition clock_later : clock :=
  {| t_read := Q2Qc 5000; t_query := Q2Qc 5001; t_write := Q2Qc 5002 |}.

Definition pune_result : map_result (F := Qc) :=
  {| mr_success := true;
     mr_center := {| lat := Q2Qc (37 # 2); lon := Q2Qc (369 # 5) |};
     mr_radius := 700;
     mr_source := "openstreetmap/overpass";
     mr_pois_count := 1;
     mr_pois := [Sample.hospital_poi];
     mr_queried_at := 101;
     mr_cached := false |}.

Definition cache_after_first : gmap string (Qc * map_result (F := Qc)) :=
  {[ "station:pune:700" := (Q2Qc 102, pune_result) ]}.

End Fixture.

(** * Properties *)

(** ** Text *)

Lemma truthy_nonempty s : Text.truthy s = true ↔ s ≠ EmptyString.
Proof. destruct s; simpl; split; congruence. Qed.

Lemma truthy_opt_Some o :
  truthy_opt o = true ↔ ∃ s, o = Some s ∧ s ≠ EmptyString.
Proof.
  destruct o as [s|]; simpl.
  - rewrite truthy_nonempty. split; [by exists s|]. by intros (? & [= <-] & ?).
  - split; [done|]. by intros (? & ? & ?).
Qed.

Lemma all_chars_keep p s : Text.all_chars p (Text.keep p s) = true.
Proof.
  induction s as [|c s IH]; simpl; [done|].
  destruct (p c) eqn:E; simpl; [by rewrite E|done].
Qed.

Lemma all_chars_squeeze p c s :
  Text.all_chars p s = true -> Text.all_chars p (Text.squeeze c s) = true.
Proof.
  induction s as [|d s IH]; simpl; [done|].
  intros [Hd Hs]%andb_true_iff.
  destruct (Ascii.eqb d c && Text.starts_with_char c s); simpl; auto.
  by rewrite Hd, IH.
Qed.

Lemma all_chars_lstrip p q s :
  Text.all_chars p s = true -> Text.all_chars p (Text.lstrip q s) = true.
Proof.
  induction s as [|d s IH]; simpl; [done|].
  intros H. pose proof H as [Hd Hs]%andb_true_iff.
  destruct (q d); simpl; auto.
Qed.

Lemma lstrip_all p s :
  Text.all_chars p s = true -> Text.lstrip p s = EmptyString.
Proof.
  induction s as [|c s IH]; [done|]. simpl.
  intros [Hc Hs]%andb_true_iff. rewrite Hc. by apply IH.
Qed.

Lemma lstrip_fixed p s :
  match s with String c _ => p c = false | EmptyString => True end ->
  Text.lstrip p s = s.
Proof. destruct s as [|c s]; [done|]. simpl. by intros ->. Qed.

Lemma rstrip_cons p c s :
  Text.rstrip p (String c s)
  = if Text.truthy (Text.rstrip p s) || negb (p c)
    then String c (Text.rstrip p s) else EmptyString.
Proof. simpl. destruct (Text.rstrip p s), (p c); done. Qed.

Lemma rstrip_cons_not p c s :
  p c = false -> Text.rstrip p (String c s) = String c (Text.rstrip p s).
Proof. intros H. rewrite rstrip_cons, H. by rewrite orb_true_r. Qed.

Lemma strip_whitespace_only s :
  Text.all_chars Text.is_space s = true -> Text.strip s = EmptyString.
Proof. intros H. unfold Text.strip, Text.strip_by. by rewrite lstrip_all. Qed.

Lemma keep_fixed p s : Text.all_chars p s = true -> Text.keep p s = s.
Proof.
  induction s as [|c s IH]; [done|].
  intros [Hc Hs]%andb_true_iff. simpl. by rewrite Hc, IH.
Qed.

(** ** Slug normalizer *)

Lemma starts_squeeze c s :
  Text.starts_with_char c (Text.squeeze c s) = Text.starts_with_char c s.
Proof.
  induction s as [|d s IH]; simpl; [done|].
  destruct (Ascii.eqb d c) eqn:E; simpl.
  - destruct (Text.starts_with_char c s) eqn:E'; simpl; [by rewrite IH|done].
  - by rewrite E.
Qed.

Lemma single_hyphens_squeeze s : single_hyphens (Text.squeeze hyphen s) = true.
Proof.
  induction s as [|d s IH]; simpl; [done|].
  unfold is_hyphen.
  destruct (Ascii.eqb d hyphen) eqn:E; simpl.
  - destruct (Text.starts_with_char hyphen s) eqn:E'; simpl; [done|].
    unfold is_hyphen. by rewrite E, starts_squeeze, E'.
  - unfold is_hyphen. by rewrite E.
Qed.

Lemma single_hyphens_lstrip q s :
  single_hyphens s = true -> single_hyphens (Text.lstrip q s) = true.
Proof.
  induction s as [|d s IH]; simpl; [done|].
  intros H. pose proof H as [_ Hs]%andb_true_iff.
  destruct (q d); simpl; auto.
Qed.

Lemma lstrip_head s :
  Text.starts_with_char hyphen (Text.lstrip is_hyphen s) = false.
Proof.
  induction s as [|d s IH]; simpl; [done|].
  destruct (is_hyphen d) eqn:E; simpl; [done|]. exact E.
Qed.

Lemma alnum_not_hyphen c : alnum c = true -> is_hyphen c = false.
Proof.
  unfold is_hyphen. destruct (Ascii.eqb_spec c hyphen) as [->|]; [|done].
  by vm_compute.
Qed.

Lemma slug_char_cases c :
  slug_char c = true ->
  (alnum c = true ∧ is_hyphen c = false) ∨ (alnum c = false ∧ is_hyphen c = true).
Proof.
  unfold slug_char. destruct (alnum c) eqn:E; simpl.
  - left. split; [done|]. by apply alnum_not_hyphen.
  - intros ->. by right.
Qed.

Lemma accepts_alnum q c s :
  alnum c = true -> slug_accepts q (String c s) = slug_accepts InRun s.
Proof. intros H. simpl. by rewrite H. Qed.

(** From inside a run, what [rstrip] leaves of a string of slug
    characters with single hyphens is accepted. *)
Lemma accepts_rstrip_run s :
  Text.all_chars slug_char s = true -> single_hyphens s = true ->
  slug_accepts InRun (Text.rstrip is_hyphen s) = true.
Proof.
  induction s as [|c s IH]; [done|].
  intros [Hc Hs]%andb_true_iff [Hh Hss]%andb_true_iff.
  specialize (IH Hs Hss).
  destruct (slug_char_cases c Hc) as [[Ha Hn]|[Ha Hy]].
  - rewrite rstrip_cons_not by done. by rewrite accepts_alnum.
  - rewrite Hy in Hh. apply negb_true_iff in Hh.
    rewrite rstrip_cons, Hy, orb_false_r.
    destruct s as [|d s]; [done|].
    change (is_hyphen d = false) in Hh.
    apply andb_true_iff in Hs as [Hd _].
    destruct (slug_char_cases d Hd) as [[Hda _]|[_ Hdy]]; [|congruence].
    rewrite rstrip_cons_not in IH |- * by done.
    rewrite accepts_alnum in IH by done.
    cbn [Text.truthy slug_accepts]. by rewrite Ha, Hy, Hda.
Qed.

Lemma accepts_fresh_of_run s :
  Text.starts_with_char hyphen s = false -> s ≠ EmptyString ->
  Text.all_chars slug_char s = true ->
  slug_accepts Fresh (Text.rstrip is_hyphen s)
  = slug_accepts InRun (Text.rstrip is_hyphen s).
Proof.
  destruct s as [|c s]; [done|]. simpl Text.starts_with_char.
  intros Hh _ [Hc _]%andb_true_iff.
  change (Ascii.eqb c hyphen) with (is_hyphen c) in Hh.
  rewrite rstrip_cons_not by done. simpl.
  destruct (slug_char_cases c Hc) as [[-> _]|[_ ?]]; [done|congruence].
Qed.

Lemma slugify_valid x : valid_slug (slugify x).
Proof.
  unfold slugify, Text.strip_by.
  set (k := Text.keep slug_char _).
  set (t := Text.lstrip is_hyphen (Text.squeeze hyphen k)).
  assert (Ha : Text.all_chars slug_char t = true).
  { apply all_chars_lstrip, all_chars_squeeze, all_chars_keep. }
  assert (Hs : single_hyphens t = true).
  { apply single_hyphens_lstrip, single_hyphens_squeeze. }
  assert (Hh : Text.starts_with_char hyphen t = false) by apply lstrip_head.
  destruct (decide (t = EmptyString)) as [->|Hne]; [by left|].
  right. unfold slug_re. rewrite accepts_fresh_of_run by done.
  by apply accepts_rstrip_run.
Qed.

Lemma accepts_all_chars q s :
  slug_accepts q s = true -> Text.all_chars slug_char s = true.
Proof.
  revert q. induction s as [|c s IH]; intros q; [done|]. simpl.
  unfold slug_char. destruct (alnum c); simpl; [by apply IH|].
  destruct (is_hyphen c); [|done]. destruct q; try done. by apply IH.
Qed.

Lemma slug_char_lower c : slug_char c = true -> Text.lower_char c = c.
Proof.
  destruct c as [[] [] [] [] [] [] [] []]; vm_compute; congruence.
Qed.

Lemma lower_fixed s : Text.all_chars slug_char s = true -> Text.lower s = s.
Proof.
  induction s as [|c s IH]; [done|].
  intros [Hc Hs]%andb_true_iff. simpl. by rewrite slug_char_lower, IH.
Qed.

Lemma replace_char_fixed old new s :
  slug_char old = false -> Text.all_chars slug_char s = true ->
  Text.replace_char old new s = s.
Proof.
  intros Hold. induction s as [|c s IH]; [done|].
  intros [Hc Hs]%andb_true_iff. simpl.
  destruct (Ascii.eqb_spec c old) as [->|_]; [congruence|]. by rewrite IH.
Qed.

Lemma accepts_head q s :
  q ≠ InRun -> slug_accepts q s = true ->
  Text.starts_with_char hyphen s = false.
Proof.
  destruct s as [|c s]; [done|]. simpl. intros Hq.
  destruct (alnum c) eqn:Ha; [intros _; by apply alnum_not_hyphen|].
  fold (is_hyphen c). destruct (is_hyphen c); [|done]. by destruct q.
Qed.

Lemma squeeze_fixed q s :
  slug_accepts q s = true -> Text.squeeze hyphen s = s.
Proof.
  revert q. induction s as [|c s IH]; intros q; [done|].
  intros H. pose proof H as H'. simpl in H'. simpl.
  fold (is_hyphen c) in *.
  destruct (alnum c) eqn:Ha.
  - rewrite (alnum_not_hyphen c Ha). simpl. by rewrite (IH InRun).
  - destruct (is_hyphen c); [|done]. destruct q; try done.
    rewrite (accepts_head AfterHyphen s) by done. simpl.
    by rewrite (IH AfterHyphen).
Qed.

Lemma rstrip_fixed q s :
  slug_accepts q s = true -> Text.rstrip is_hyphen s = s.
Proof.
  revert q. induction s as [|c s IH]; intros q; [done|].
  intros H. pose proof H as H'. simpl in H'. rewrite rstrip_cons.
  destruct (alnum c) eqn:Ha.
  - rewrite (alnum_not_hyphen c Ha), orb_true_r. by rewrite (IH InRun).
  - destruct (is_hyphen c); [|done]. destruct q; try done.
    rewrite (IH AfterHyphen) by done.
    by destruct s.
Qed.

(** On a string of the slug language every step of [slugify] is the
    identity. *)
Lemma slugify_fixed s : slug_re s = true -> slugify s = s.
Proof.
  unfold slug_re. intros H.
  pose proof (accepts_all_chars _ _ H) as Hall.
  unfold slugify, Text.strip_by.
  rewrite lower_fixed by done.
  rewrite (replace_char_fixed "(" _ s) by done.
  rewrite (replace_char_fixed ")" _ s) by done.
  rewrite (replace_char_fixed "/" _ s) by done.
  rewrite (replace_char_fixed " " _ s) by done.
  rewrite (replace_char_fixed "&" _ s) by done.
  rewrite keep_fixed by done.
  rewrite (squeeze_fixed Fresh) by done.
  rewrite lstrip_fixed.
  - by apply (rstrip_fixed Fresh).
  - destruct s as [|c s]; [done|].
    by apply (accepts_head Fresh (String c s)).
Qed.

Lemma accepts_run_app q r t :
  Text.all_chars alnum r = true -> r ≠ EmptyString ->
  slug_accepts q (r +:+ t) = slug_accepts InRun t.
Proof.
  revert q. induction r as [|c r IH]; intros q Hall Hne; [done|].
  apply andb_true_iff in Hall as [Hc Hr]. simpl. rewrite Hc.
  destruct r as [|d r]; [done|]. by apply IH.
Qed.

Lemma accepts_hyphen_tails runs :
  Forall is_run runs -> slug_accepts InRun (hyphen_tails runs) = true.
Proof.
  induction 1 as [|r runs [Hne Hall] _ IH]; [done|].
  simpl. rewrite accepts_run_app by done. exact IH.
Qed.

Lemma accepts_decompose s : ∀ q,
  slug_accepts q s = true ->
  ∃ r runs, Text.all_chars alnum r = true ∧ (q ≠ InRun -> r ≠ EmptyString) ∧
            Forall is_run runs ∧ s = r +:+ hyphen_tails runs.
Proof.
  induction s as [|c s IH]; intros q H.
  - destruct q; try done. by exists EmptyString, [].
  - cbn [slug_accepts] in H. destruct (alnum c) eqn:Ha.
    + destruct (IH InRun H) as (r & runs & Hr & _ & Hruns & ->).
      exists (String c r), runs.
      split; [simpl; by rewrite Ha, Hr|]. by repeat split.
    + destruct (is_hyphen c) eqn:Hy; [|done]. destruct q; try done.
      destruct (IH AfterHyphen H) as (r & runs & Hr & Hne & Hruns & ->).
      exists EmptyString, (r :: runs).
      split; [done|]. split; [done|]. split.
      * constructor; [|done]. split; [by apply Hne|done].
      * unfold is_hyphen in Hy. apply Ascii.eqb_eq in Hy. by subst c.
Qed.

(** The automaton accepts the strings of the expression: at least one
    non-empty run of [[a-z0-9]], the runs separated by single hyphens. *)
Lemma slug_re_runs s :
  slug_re s = true ↔
  ∃ runs, runs ≠ [] ∧ Forall is_run runs ∧ s = join_hyphen runs.
Proof.
  unfold slug_re. split.
  - intros H. destruct (accepts_decompose s Fresh H) as (r & runs & Hr & Hne & Hruns & ->).
    exists (r :: runs). split; [done|]. split; [|done].
    constructor; [|done]. split; [by apply Hne|done].
  - intros (runs & Hne & Hruns & ->).
    destruct Hruns as [|r runs [Hr Hall] Hruns]; [done|].
    simpl. rewrite accepts_run_app by done. by apply accepts_hyphen_tails.
Qed.

(** C8. [slugify] is a total function; applying it twice gives what
    applying it once gives, and every output is the empty string or a
    string of the language [^[a-z0-9]+(-[a-z0-9]+)*$]: it is accepted by
    the automaton of the expression, that is, it consists of non-empty
    runs of [[a-z0-9]] joined by single hyphens. *)
Theorem slugify_idempotent_valid (x : string) :
  slugify (slugify x) = slugify x ∧
  valid_slug (slugify x) ∧
  (slugify x = EmptyString ∨
   ∃ runs, runs ≠ [] ∧ Forall is_run runs ∧ slugify x = join_hyphen runs).
Proof.
  pose proof (slugify_valid x) as Hv. split; [|split; [exact Hv|]].
  - destruct Hv as [-> | H]; [done|]. by apply slugify_fixed.
  - destruct Hv as [Hv | Hv]; [by left|]. right. by apply slug_re_runs.
Qed.

Example slugify_sample :
  slugify "Mumbai (CST) / Pune & Co  Express--12"
  = "mumbai-cst-pune-and-co-express-12".
Proof. reflexivity. Qed.

Example slugify_only_hyphens : slugify " -/- " = EmptyString.
Proof. reflexivity. Qed.

(** ** Indexing and loops *)

Lemma py_index_nonneg {A} (l : list A) (i : Z) (x : A) :
  (0 ≤ i)%Z -> l !! Z.to_nat i = Some x -> py_index l i = Ok x.
Proof.
  intros Hi Hx. unfold py_index.
  pose proof (lookup_lt_Some _ _ _ Hx) as Hlt.
  destruct (Z.ltb_spec i 0); [lia|].
  destruct (Z.leb_spec 0 i); [|lia].
  destruct (Z.ltb_spec i (Z.of_nat (length l))); [|lia].
  simpl. by rewrite Hx.
Qed.

Lemma py_index_app_0 {A} (pre rest : list A) (x : A) :
  py_index (pre ++ x :: rest) (Z.of_nat (length pre)) = Ok x.
Proof.
  apply py_index_nonneg; [lia|].
  rewrite Nat2Z.id. by rewrite list_lookup_middle.
Qed.

Lemma py_index_app_1 {A} (pre rest : list A) (x y : A) :
  py_index (pre ++ x :: y :: rest) (Z.of_nat (length pre) + 1) = Ok y.
Proof.
  apply py_index_nonneg; [lia|].
  replace (Z.to_nat (Z.of_nat (length pre) + 1)) with (length pre + 1) by lia.
  rewrite lookup_app_r by lia.
  by replace (length pre + 1 - length pre) with 1 by lia.
Qed.

(** A loop whose body never raises appends what each turn yields. *)
Lemma for_each_total {A B} (body : A -> result (list B)) (g : A -> list B) l :
  (∀ x, body x = Ok (g x)) ->
  ∀ acc, for_each body l acc = Ok (acc ++ (l ≫= g)).
Proof.
  intros Hbody. induction l as [|x l IH]; intros acc; simpl.
  - by rewrite app_nil_r.
  - rewrite Hbody, IH. by rewrite app_assoc.
Qed.

(** ** Station search *)

Lemma station_pair_at rows i row_main row_sub :
  py_index rows i = Ok row_main -> py_index rows (i + 1) = Ok row_sub ->
  station_pair rows i
  = Ok (station_match_of (Dom.find_all "td" row_main) (Dom.find_all "td" row_sub)).
Proof.
  intros Hm Hs. unfold station_pair. rewrite Hm, Hs. simpl.
  destruct (Dom.find_all "td" row_main) as [|c0 [|c1 [|c2 [|c3 [|c4 m]]]]];
    try reflexivity;
  destruct (Dom.find_all "td" row_sub) as [|e0 [|e1 [|e2 s]]]; try reflexivity.
  set (main := c0 :: c1 :: c2 :: c3 :: c4 :: m).
  set (sub := e0 :: e1 :: e2 :: s).
  replace ((length main <? 5) || (length sub <? 3)) with false by done.
  rewrite (py_index_nonneg main 0 c0), (py_index_nonneg main 1 c1),
    (py_index_nonneg main 2 c2), (py_index_nonneg main 3 c3),
    (py_index_nonneg main 4 c4), (py_index_nonneg sub 2 e2) by done.
  done.
Qed.

(** The indices of the loop: the even numbers below [n - 2]. *)
Lemma py_range_pairs (n : nat) :
  py_range 0 (Z.max 0 (Z.of_nat n - 2)) 2
  = (fun k : nat => (0 + Z.of_nat k * 2)%Z) <$> seq 0 ((n - 1) / 2).
Proof.
  unfold py_range. simpl. f_equal. f_equal.
  destruct (decide (n ≤ 1)) as [Hn|Hn].
  - replace (n - 1) with 0 by lia. by rewrite Z.max_l by lia.
  - rewrite Z.max_r by lia.
    replace (Z.of_nat n - 2 - 0 + 2 - 1)%Z with (Z.of_nat (n - 1)) by lia.
    change 2%Z with (Z.of_nat 2).
    by rewrite <- Nat2Z.inj_div, Nat2Z.id.
Qed.

Lemma examined_pairs_step r1 r2 r3 rest :
  examined_pairs (r1 :: r2 :: r3 :: rest)
  = station_match_of (Dom.find_all "td" r1) (Dom.find_all "td" r2)
    ++ examined_pairs (r3 :: rest).
Proof. reflexivity. Qed.

Lemma pair_count_step (n : nat) : (S (S (S n)) - 1) / 2 = S ((S n - 1) / 2).
Proof.
  replace (S (S (S n)) - 1) with (n + 1 * 2) by lia.
  rewrite Nat.div_add by lia. replace (S n - 1) with n by lia. lia.
Qed.

(** The loop from the row after [pre] on: by induction on the number of
    turns left. *)
Lemma for_each_examined (cnt : nat) :
  ∀ (pre rest : list node) (acc : list StationMatch),
  cnt = (length rest - 1) / 2 ->
  for_each (station_pair (pre ++ rest))
    ((fun k : nat => (Z.of_nat (length pre) + Z.of_nat k * 2)%Z) <$> seq 0 cnt) acc
  = Ok (acc ++ examined_pairs rest).
Proof.
  induction cnt as [|cnt IH]; intros pre rest acc Hcnt.
  - destruct rest as [|r1 [|r2 [|r3 rest]]]; simpl; rewrite ?app_nil_r; try done.
    exfalso. cbn [length] in Hcnt. rewrite pair_count_step in Hcnt. lia.
  - destruct rest as [|r1 [|r2 [|r3 rest]]]; try (by vm_compute in Hcnt).
    cbn [length] in Hcnt. rewrite pair_count_step in Hcnt.
    cbn [seq fmap list_fmap for_each].
    rewrite (station_pair_at _ _ r1 r2).
    + rewrite examined_pairs_step, app_assoc.
      rewrite <- (IH (pre ++ [r1; r2]) (r3 :: rest)) by (cbn [length]; lia).
      rewrite <- app_assoc. cbn [app]. f_equal.
      rewrite <- fmap_S_seq, <- list_fmap_compose.
      apply list_fmap_ext. intros _ k _. simpl.
      rewrite length_app. simpl. lia.
    + replace (Z.of_nat (length pre) + Z.of_nat 0 * 2)%Z
        with (Z.of_nat (length pre)) by lia.
      apply py_index_app_0.
    + replace (Z.of_nat (length pre) + Z.of_nat 0 * 2 + 1)%Z
        with (Z.of_nat (length pre) + 1)%Z by lia.
      apply py_index_app_1.
Qed.

Lemma station_rows_examined rows : station_rows rows = Ok (examined_pairs rows).
Proof.
  unfold station_rows. rewrite py_range_pairs.
  by rewrite (for_each_examined _ [] rows []).
Qed.

Lemma station_match_of_well_formed m s :
  well_formed_pair m s ->
  ∃ c0 c1 c2 c3 c4 e2,
    Dom.find_all "td" m !! 0 = Some c0 ∧ Dom.find_all "td" m !! 1 = Some c1 ∧
    Dom.find_all "td" m !! 2 = Some c2 ∧ Dom.find_all "td" m !! 3 = Some c3 ∧
    Dom.find_all "td" m !! 4 = Some c4 ∧ Dom.find_all "td" s !! 2 = Some e2 ∧
    station_match_of (Dom.find_all "td" m) (Dom.find_all "td" s)
    = [ {| sm_id := cell_text c0; sm_code := cell_text c1; sm_name := cell_text c2;
           sm_division := cell_text c3; sm_full := cell_text c4;
           sm_location := cell_text e2 |} ].
Proof.
  unfold well_formed_pair. intros [Hm Hs].
  destruct (Dom.find_all "td" m) as [|c0 [|c1 [|c2 [|c3 [|c4 main]]]]];
    simpl in Hm; try lia.
  destruct (Dom.find_all "td" s) as [|e0 [|e1 [|e2 sub]]]; simpl in Hs; try lia.
  by exists c0, c1, c2, c3, c4, e2.
Qed.

(** C1, as the code has it. The loop stops two rows before the end of
    the table, so a row pair is examined only when a further row follows
    it. The extraction never raises and returns the matches of the
    examined pairs, in order. A table whose rows are one well-formed pair
    and one further row yields exactly one match, its six fields the
    stripped texts of primary cells 0 to 4 and of secondary cell 2; two
    well-formed pairs followed by a truncated pair yield exactly two
    matches; a table that holds a single pair, truncated or not, yields
    no match. *)
Theorem station_search_examined_pairs (soup : node) :
  let rows := select_dropdown_rows soup in
  station_search soup = Ok (examined_pairs rows) ∧
  (∀ m s x, rows = [m; s; x] -> well_formed_pair m s ->
     ∃ c0 c1 c2 c3 c4 e2,
       Dom.find_all "td" m !! 0 = Some c0 ∧ Dom.find_all "td" m !! 1 = Some c1 ∧
       Dom.find_all "td" m !! 2 = Some c2 ∧ Dom.find_all "td" m !! 3 = Some c3 ∧
       Dom.find_all "td" m !! 4 = Some c4 ∧ Dom.find_all "td" s !! 2 = Some e2 ∧
       station_search soup
       = Ok [ {| sm_id := cell_text c0; sm_code := cell_text c1;
                 sm_name := cell_text c2; sm_division := cell_text c3;
                 sm_full := cell_text c4; sm_location := cell_text e2 |} ]) ∧
  (∀ m1 s1 m2 s2 m3 s3,
     rows = [m1; s1; m2; s2; m3; s3] ->
     well_formed_pair m1 s1 -> well_formed_pair m2 s2 -> truncated_pair m3 s3 ->
     ∃ a b, station_search soup = Ok [a; b] ∧
       station_match_of (Dom.find_all "td" m1) (Dom.find_all "td" s1) = [a] ∧
       station_match_of (Dom.find_all "td" m2) (Dom.find_all "td" s2) = [b]) ∧
  (∀ m s, rows = [m; s] -> station_search soup = Ok []).
Proof.
  cbv zeta. unfold station_search. rewrite station_rows_examined.
  split; [done|]. split; [|split].
  - intros m s x -> Hwf.
    destruct (station_match_of_well_formed m s Hwf)
      as (c0 & c1 & c2 & c3 & c4 & e2 & H0 & H1 & H2 & H3 & H4 & H5 & Heq).
    exists c0, c1, c2, c3, c4, e2. repeat (split; [done|]).
    cbn [examined_pairs]. by rewrite Heq.
  - intros m1 s1 m2 s2 m3 s3 -> Hwf1 Hwf2 _.
    destruct (station_match_of_well_formed m1 s1 Hwf1)
      as (? & ? & ? & ? & ? & ? & _ & _ & _ & _ & _ & _ & Heq1).
    destruct (station_match_of_well_formed m2 s2 Hwf2)
      as (? & ? & ? & ? & ? & ? & _ & _ & _ & _ & _ & _ & Heq2).
    eexists _, _. cbn [examined_pairs]. rewrite Heq1, Heq2. done.
  - by intros m s ->.
Qed.

Lemma station_search_examined_pairs_witness :
  (select_dropdown_rows Sample.doc_two_valid_one_truncated
   = [Sample.pune; Sample.pune_sub; Sample.daund; Sample.daund_sub;
      Sample.pune; Sample.truncated_row] ∧
   well_formed_pair Sample.pune Sample.pune_sub ∧
   well_formed_pair Sample.daund Sample.daund_sub ∧
   truncated_pair Sample.pune Sample.truncated_row) ∧
  ∃ a b, station_search Sample.doc_two_valid_one_truncated = Ok [a; b] ∧
    station_match_of (Dom.find_all "td" Sample.pune)
      (Dom.find_all "td" Sample.pune_sub) = [a] ∧
    station_match_of (Dom.find_all "td" Sample.daund)
      (Dom.find_all "td" Sample.daund_sub) = [b].
Proof.
  assert (Hrows : select_dropdown_rows Sample.doc_two_valid_one_truncated
                  = [Sample.pune; Sample.pune_sub; Sample.daund; Sample.daund_sub;
                     Sample.pune; Sample.truncated_row])
    by reflexivity.
  assert (H1 : well_formed_pair Sample.pune Sample.pune_sub) by (vm_compute; lia).
  assert (H2 : well_formed_pair Sample.daund Sample.daund_sub) by (vm_compute; lia).
  assert (H3 : truncated_pair Sample.pune Sample.truncated_row) by (vm_compute; lia).
  split; [done|].
  exact (proj1 (proj2 (proj2
           (station_search_examined_pairs Sample.doc_two_valid_one_truncated)))
           _ _ _ _ _ _ Hrows H1 H2 H3).
Defined.

(** C1 as the specification words it fails: the table of
    [Sample.doc_single_pair] holds exactly one well-formed row pair, and
    the extraction returns no match. *)
Lemma station_search_single_pair_no_match :
  select_dropdown_rows Sample.doc_single_pair = [Sample.pune; Sample.pune_sub] ∧
  well_formed_pair Sample.pune Sample.pune_sub ∧
  station_search Sample.doc_single_pair = Ok [].
Proof. split; [reflexivity|]. split; [vm_compute; lia|reflexivity]. Qed.

Example station_search_pair_then_row :
  station_search Sample.doc_pair_then_row
  = Ok [ {| sm_id := "1620"; sm_code := "PUNE"; sm_name := "Pune Junction";
            sm_division := "CR/Pune"; sm_full := "Pune Junction (PUNE)";
            sm_location := "Pune, Maharashtra" |} ].
Proof. reflexivity. Qed.

Example station_search_two_valid_one_truncated :
  match station_search Sample.doc_two_valid_one_truncated with
  | Ok matches => length matches
  | Raised => 0
  end = 2.
Proof. reflexivity. Qed.

(** ** Departures *)

(** The shape of an appended record. *)
Lemma departure_of_block_Some station_id dest blk r :
  departure_of_block station_id dest blk = Some r ->
  let block := Dom.here blk in
  let t := cell_at (block_cells dest block) in
  ∃ train_no name,
    t 0 = Some train_no ∧ block_name dest block = Some name ∧
    train_no ≠ EmptyString ∧ name ≠ EmptyString ∧
    dr_train_no r = train_no ∧ dr_name r = name ∧
    dr_type r = t 2 ∧ dr_zone r = t 3 ∧
    dr_platform r = t (if with_destination dest then 5 else 4) ∧
    dr_from r = t (if with_destination dest then 4 else 6) ∧
    dr_arrival_time r = t (if with_destination dest then 6 else 7) ∧
    dr_to r = t (if with_destination dest then 7 else 8) ∧
    dr_departure_time r = t 9 ∧
    dr_train_url r =
      match internal_id_of blk with
      | Some id =>
          if Text.truthy id
          then Some (timetable_marker +:+
                     (match fst <$> anchor_match (find_name_anchor block) with
                      | Some slug => if Text.truthy slug then slug
                                     else slugify (name +:+ "-" +:+ train_no)
                      | None => slugify (name +:+ "-" +:+ train_no)
                      end)
                     +:+ "/" +:+ id +:+ "/" +:+ station_id +:+ "/" +:+ dest)
          else None
      | None => None
      end.
Proof.
  unfold departure_of_block. intros H. cbv zeta.
  destruct (cell_at (block_cells dest (Dom.here blk)) 0) as [train_no|] eqn:Ht;
    [|by destruct (with_destination dest)].
  destruct (block_name dest (Dom.here blk)) as [name|] eqn:Hn;
    [|by destruct (with_destination dest)].
  exists train_no, name.
  destruct (Text.truthy train_no) eqn:Et; [|by destruct (with_destination dest)].
  destruct (Text.truthy name) eqn:En; [|by destruct (with_destination dest)].
  apply truthy_nonempty in Et, En.
  destruct (with_destination dest); simpl in H; inversion H; subst r; clear H; simpl;
    repeat split; try done;
    destruct (internal_id_of blk) as [id|]; try done;
    destruct (Text.truthy id); try done;
    by destruct (anchor_match _) as [[slug i]|]; simpl; [destruct (Text.truthy slug)|].
Qed.

Lemma departure_of_block_None station_id dest blk :
  departure_of_block station_id dest blk = None ↔
  truthy_opt (cell_at (block_cells dest (Dom.here blk)) 0) = false ∨
  truthy_opt (block_name dest (Dom.here blk)) = false.
Proof.
  unfold departure_of_block.
  destruct (cell_at (block_cells dest (Dom.here blk)) 0) as [train_no|];
  destruct (block_name dest (Dom.here blk)) as [name|];
  destruct (with_destination dest); simpl;
  try destruct (Text.truthy train_no); try destruct (Text.truthy name); simpl;
  (split; [first [done | by left | by right] | first [done | by intros [?|?]]]).
Qed.

Lemma departures_elem station_id dest soup r :
  r ∈ departures station_id dest soup ↔
  ∃ blk, blk ∈ select_blocks soup ∧ departure_of_block station_id dest blk = Some r.
Proof. unfold departures. apply list_elem_of_omap. Qed.




(** C3. In every record, under both layouts, the field labelled
    [departure_time] holds the text of the cell at position 9, which the
    code reads as the arrival time, and the field labelled
    [arrival_time] holds the text of the cell the code reads as the
    departure time: position 6 with a destination, position 7 without.
    A position past the last cell gives [None]. *)
Theorem departures_time_labels station_id dest soup r :
  r ∈ departures station_id dest soup ->
  ∃ blk, blk ∈ select_blocks soup ∧
    let cells := block_cells dest (Dom.here blk) in
    dr_departure_time r = cell_at cells 9 ∧
    dr_arrival_time r = cell_at cells (if with_destination dest then 6 else 7).
Proof.
  intros (blk & Hin & Hr)%departures_elem. exists blk. split; [done|].
  apply departure_of_block_Some in Hr. cbv zeta in Hr.
  destruct Hr as (tn & nm & _ & _ & _ & _ & _ & _ & _ & _ & _ & _ & Ha & _ & Hd & _).
  by split.
Qed.

Lemma departures_time_labels_witness :
  Sample.deccan_queen_routed ∈ departures "57" "0" Sample.departures_page ∧
  ∃ blk, blk ∈ select_blocks Sample.departures_page ∧
    dr_departure_time Sample.deccan_queen_routed
      = cell_at (block_cells "0" (Dom.here blk)) 9 ∧
    dr_arrival_time Sample.deccan_queen_routed
      = cell_at (block_cells "0" (Dom.here blk)) 7.
Proof.
  assert (Hin : Sample.deccan_queen_routed
                ∈ departures "57" "0" Sample.departures_page)
    by (vm_compute; constructor).
  split; [exact Hin|].
  exact (departures_time_labels "57" "0" Sample.departures_page
           Sample.deccan_queen_routed Hin).
Defined.

Lemma timetable_match_here_nonempty s slug id :
  timetable_match_here s = Some (slug, id) ->
  slug ≠ EmptyString ∧ id ≠ EmptyString.
Proof.
  unfold timetable_match_here.
  destruct (Text.is_prefix timetable_marker s); [|done].
  destruct (Text.span _ _) as [sl rest1].
  destruct sl as [|c sl]; [done|]. destruct rest1 as [|d rest2]; [done|].
  destruct (Text.span Text.is_digit rest2) as [digits rest3].
  destruct digits as [|e digits]; [done|].
  simpl. by intros [= <- <-].
Qed.

(** Both groups of a match are non-empty. *)
Lemma timetable_search_nonempty s slug id :
  timetable_search s = Some (slug, id) ->
  slug ≠ EmptyString ∧ id ≠ EmptyString.
Proof.
  induction s as [|c s IH]; cbn [timetable_search].
  - destruct (timetable_match_here EmptyString) as [[sl i]|] eqn:E; [|done].
    intros [= <- <-]. by apply (timetable_match_here_nonempty EmptyString).
  - destruct (timetable_match_here (String c s)) as [[sl i]|] eqn:E; [|done].
    intros [= <- <-]. by apply (timetable_match_here_nonempty (String c s)).
Qed.

Lemma anchor_match_nonempty a slug id :
  anchor_match a = Some (slug, id) -> slug ≠ EmptyString ∧ id ≠ EmptyString.
Proof.
  unfold anchor_match. destruct a as [a|]; simpl; [|done].
  apply timetable_search_nonempty.
Qed.

Lemma span_sound p s a b :
  Text.span p s = (a, b) ->
  Text.all_chars p a = true ∧ s = a +:+ b ∧
  match b with String c _ => p c = false | EmptyString => True end.
Proof.
  revert a b. induction s as [|c s IH]; intros a b; simpl.
  - by intros [= <- <-].
  - destruct (p c) eqn:Hc.
    + destruct (Text.span p s) as [a' b'] eqn:E. intros [= <- <-].
      destruct (IH a' b' eq_refl) as (Ha & -> & Hb). simpl. by rewrite Hc.
    + intros [= <- <-]. by rewrite Hc.
Qed.

Lemma timetable_match_here_groups s slug id :
  timetable_match_here s = Some (slug, id) ->
  slug ≠ EmptyString ∧ Text.all_chars no_slash slug = true ∧
  id ≠ EmptyString ∧ Text.all_chars Text.is_digit id = true.
Proof.
  unfold timetable_match_here.
  destruct (Text.is_prefix timetable_marker s); [|done].
  destruct (Text.span _ _) as [sl rest1] eqn:E1.
  destruct sl as [|c sl]; [done|]. destruct rest1 as [|d rest2]; [done|].
  destruct (Text.span Text.is_digit rest2) as [digits rest3] eqn:E2.
  destruct digits as [|e digits]; [done|].
  simpl. intros [= <- <-].
  apply span_sound in E1 as (H1 & _ & _). apply span_sound in E2 as (H2 & _ & _).
  done.
Qed.

Lemma timetable_search_groups s slug id :
  timetable_search s = Some (slug, id) ->
  slug ≠ EmptyString ∧ Text.all_chars no_slash slug = true ∧
  id ≠ EmptyString ∧ Text.all_chars Text.is_digit id = true.
Proof.
  induction s as [|c s IH]; cbn [timetable_search].
  - destruct (timetable_match_here EmptyString) as [[sl i]|] eqn:E; [|done].
    intros [= <- <-]. by apply (timetable_match_here_groups EmptyString).
  - destruct (timetable_match_here (String c s)) as [[sl i]|] eqn:E; [|done].
    intros [= <- <-]. by apply (timetable_match_here_groups (String c s)).
Qed.

(** The first item of a list that passes a test, with what stands
    before it. *)
Lemma head_filter_split {A : Type} (p : A -> bool) (l : list A) (x : A) :
  head (List.filter p l) = Some x ↔
  ∃ before after, l = before ++ x :: after ∧
    Forall (fun y => p y = false) before ∧ p x = true.
Proof.
  induction l as [|y l IH]; simpl.
  - split; [done|]. intros (before & after & E & _). by destruct before.
  - destruct (p y) eqn:Hy; simpl.
    + split.
      * intros [= ->]. by exists [], l.
      * intros (before & after & E & Hb & Hx).
        destruct before as [|z before]; simpl in E.
        -- by injection E as ->.
        -- injection E as <- _. apply Forall_cons in Hb as [Hz _]. congruence.
    + rewrite IH. split.
      * intros (before & after & -> & Hb & Hx).
        exists (y :: before), after. split; [done|]. split; [|done].
        by apply Forall_cons.
      * intros (before & after & E & Hb & Hx).
        destruct before as [|z before]; simpl in E.
        -- injection E as -> _. congruence.
        -- injection E as <- ->. apply Forall_cons in Hb as [_ Hb].
           by exists before, after.
Qed.

(** Where the identifier comes from: the digits of the anchor path, or,
    when the anchor gave none, the [t] attribute of the first sibling
    after the block that is a [reg trnsumm] division. *)
Lemma internal_id_source blk id :
  internal_id_of blk = Some id ↔
  (∃ slug, anchor_match (find_name_anchor (Dom.here blk)) = Some (slug, id) ∧
           Text.all_chars Text.is_digit id = true) ∨
  (anchor_match (find_name_anchor (Dom.here blk)) = None ∧
   ∃ before trnsumm after,
     Dom.next_siblings blk = before ++ trnsumm :: after ∧
     Forall (fun n => is_trnsumm n = false) before ∧
     is_trnsumm trnsumm = true ∧
     Dom.attr "t" trnsumm = Some id).
Proof.
  unfold internal_id_of.
  destruct (anchor_match _) as [[slug i]|] eqn:Ea; simpl.
  - assert (Hg : i ≠ EmptyString ∧ Text.all_chars Text.is_digit i = true).
    { unfold anchor_match in Ea. destruct (find_name_anchor _) as [a|]; [|done].
      simpl in Ea. by apply timetable_search_groups in Ea as (_ & _ & ? & ?). }
    destruct Hg as [Hi Hd]. apply truthy_nonempty in Hi. rewrite Hi. split.
    + intros [= <-]. left. by exists slug.
    + intros [(slug' & [= _ <-] & _)|[? _]]; done.
  - unfold Dom.find_next_sibling. split.
    + destruct (head _) as [sib|] eqn:Eh; [|done].
      destruct (Dom.attr "t" sib) as [t|] eqn:Et; [|done].
      intros [= <-]. right. split; [done|].
      apply head_filter_split in Eh as (before & after & ? & ? & ?).
      by exists before, sib, after.
    + intros [(? & ? & _)|[_ (before & sib & after & E & Hb & Hs & Ht)]]; [done|].
      assert (Eh : head (List.filter is_trnsumm (Dom.next_siblings blk)) = Some sib).
      { apply head_filter_split. by exists before, after. }
      by rewrite Eh, Ht.
Qed.

(** C4, as the code has it. The records are those of the blocks that
    are not dropped, in page order; a block is dropped exactly when its
    train number or its name is empty or absent, and the scan goes on
    after it. Every record has a non-empty train number and a non-empty
    name. Its link is set exactly when a non-empty identifier was
    recovered: the digits of the path of the timetable anchor, or, when
    the anchor gave none, the value of the [t] attribute of the first
    [reg trnsumm] division among the siblings after the block, which
    may stand anywhere after the block and may hold any text. When the
    anchor path gave no slug, the slug of the link is [slugify] of the
    name, a hyphen and the train number. *)
Theorem departures_record_invariant station_id dest soup :
  (∀ r, r ∈ departures station_id dest soup ↔
        ∃ blk, blk ∈ select_blocks soup ∧
               departure_of_block station_id dest blk = Some r) ∧
  ∀ blk,
    let block := Dom.here blk in
    (departure_of_block station_id dest blk = None ↔
       truthy_opt (cell_at (block_cells dest block) 0) = false ∨
       truthy_opt (block_name dest block) = false) ∧
    ∀ r, departure_of_block station_id dest blk = Some r ->
      dr_train_no r ≠ EmptyString ∧ dr_name r ≠ EmptyString ∧
      (dr_train_url r ≠ None ↔
         ∃ id, id ≠ EmptyString ∧
           ((∃ slug, anchor_match (find_name_anchor block) = Some (slug, id) ∧
                     Text.all_chars Text.is_digit id = true) ∨
            (anchor_match (find_name_anchor block) = None ∧
             ∃ before trnsumm after,
               Dom.next_siblings blk = before ++ trnsumm :: after ∧
               Forall (fun n => is_trnsumm n = false) before ∧
               is_trnsumm trnsumm = true ∧
               Dom.attr "t" trnsumm = Some id))) ∧
      (∀ link, dr_train_url r = Some link ->
         ∃ slug id, internal_id_of blk = Some id ∧
           link = timetable_marker +:+ slug +:+ "/" +:+ id +:+ "/"
                  +:+ station_id +:+ "/" +:+ dest ∧
           (anchor_match (find_name_anchor block) = None ->
            slug = slugify (dr_name r +:+ "-" +:+ dr_train_no r))).
Proof.
  split; [intros r; apply departures_elem|].
  intros blk block. split; [apply departure_of_block_None|].
  intros r Hr. apply departure_of_block_Some in Hr. cbv zeta in Hr.
  destruct Hr as (tn & nm & _ & _ & Htn & Hnm & <- & <- & _ & _ & _ & _ & _ & _ & _ & Hurl).
  fold block in Hurl.
  split; [done|]. split; [done|]. split; [split|].
  - intros Hne. destruct (internal_id_of blk) as [id|] eqn:Eid; [|by rewrite Hurl in Hne].
    destruct (Text.truthy id) eqn:Et; [|by rewrite Hurl in Hne].
    exists id. split; [by apply truthy_nonempty|].
    by apply internal_id_source.
  - intros (id & Hid & Eid%internal_id_source). rewrite Hurl, Eid.
    apply truthy_nonempty in Hid. by rewrite Hid.
  - intros link Hlink. rewrite Hurl in Hlink.
    destruct (internal_id_of blk) as [id|]; [|done].
    destruct (Text.truthy id); [|done].
    injection Hlink as <-. eexists _, id. split; [done|]. split; [done|].
    by intros ->.
Qed.

Lemma departures_record_invariant_witness :
  (Fixture.queen_located ∈ select_blocks Sample.departures_page ∧
   Fixture.express_located ∈ select_blocks Sample.departures_page) ∧
  (departure_of_block "57" "0" Fixture.queen_located
   = Some Sample.deccan_queen_routed ∧
   dr_train_url Sample.deccan_queen_routed ≠ None) ∧
  (departure_of_block "57" "0" Fixture.express_located
   = Some Sample.deccan_express_routed ∧
   dr_train_url Sample.deccan_express_routed ≠ None).
Proof.
  split; [split; vm_compute; repeat constructor|].
  destruct (departures_record_invariant "57" "0" Sample.departures_page)
    as [_ Hblk].
  assert (H1 : departure_of_block "57" "0" Fixture.queen_located
               = Some Sample.deccan_queen_routed) by reflexivity.
  assert (H2 : departure_of_block "57" "0" Fixture.express_located
               = Some Sample.deccan_express_routed) by reflexivity.
  split; (split; [done|]).
  - apply (proj1 (proj2 (proj2 (proj2 (Hblk Fixture.queen_located) _ H1)))).
    exists "1042". split; [done|]. left. by exists "deccan-queen-12124".
  - apply (proj1 (proj2 (proj2 (proj2 (Hblk Fixture.express_located) _ H2)))).
    exists "2077". split; [done|]. right. split; [reflexivity|].
    exists [Text " "], Sample.summary_block, []. split; [reflexivity|].
    split; [by repeat constructor|]. split; reflexivity.
Defined.

(** C4 as the specification words it fails. The block of
    [Sample.far_summary_page] has no timetable anchor, and the sibling
    next to it carries no identifier; the record still gets a link,
    with the text [abc-not-a-number] for an identifier, taken from the
    [reg trnsumm] division that stands third after the block. *)
Lemma departures_link_identifier_not_numeric :
  Fixture.far_located ∈ select_blocks Sample.far_summary_page ∧
  anchor_match (find_name_anchor (Dom.here Fixture.far_located)) = None ∧
  Dom.next_siblings Fixture.far_located
  = [Sample.advert_block; Elem "p" ∅ []; Sample.lettered_summary_block] ∧
  Dom.attr "t" Sample.advert_block = None ∧
  internal_id_of Fixture.far_located = Some "abc-not-a-number" ∧
  Text.all_chars Text.is_digit "abc-not-a-number" = false ∧
  ∃ r, departures "57" "0" Sample.far_summary_page = [r] ∧
       dr_train_url r
       = Some "/train/timetable/deccan-express-slip-11007/abc-not-a-number/57/0".
Proof.
  split; [vm_compute; constructor|].
  repeat (split; [reflexivity|]). eexists. split; reflexivity.
Qed.

Example departures_routed_sample :
  departures "57" "0" Sample.departures_page
  = [Sample.deccan_queen_routed; Sample.deccan_express_routed].
Proof. reflexivity. Qed.

(** ** Timetable *)

Lemma timetable_of_row_total row :
  timetable_of_row row = Ok (stop_row_of (stop_cells row)).
Proof.
  unfold timetable_of_row, stop_row_of, stop_cells.
  set (cells := Dom.find_children "div" (Dom.parent row)).
  destruct (Nat.ltb_spec (length cells) 17) as [Hlt|Hge].
  - rewrite bool_decide_eq_false_2 by lia. by repeat case_match.
  - rewrite bool_decide_eq_true_2 by lia.
    destruct (lookup_lt_is_Some_2 cells 2) as [c2 H2]; [lia|].
    destruct (lookup_lt_is_Some_2 cells 3) as [c3 H3]; [lia|].
    destruct (lookup_lt_is_Some_2 cells 6) as [c6 H6]; [lia|].
    destruct (lookup_lt_is_Some_2 cells 8) as [c8 H8]; [lia|].
    destruct (lookup_lt_is_Some_2 cells 11) as [c11 H11]; [lia|].
    rewrite H2, H3, H6, H8, H11.
    rewrite (py_index_nonneg cells 2 c2), (py_index_nonneg cells 3 c3),
      (py_index_nonneg cells 6 c6), (py_index_nonneg cells 8 c8),
      (py_index_nonneg cells 11 c11) by done.
    done.
Qed.

(** The scan never raises: the guarded indexing is always in range. *)
Lemma timetable_total soup :
  timetable soup = Ok (select_stop_markers soup ≫= stop_row_of ∘ stop_cells).
Proof.
  unfold timetable.
  by rewrite (for_each_total _ (stop_row_of ∘ stop_cells))
    by (intros; apply timetable_of_row_total).
Qed.

Lemma stop_row_of_elem cells r :
  r ∈ stop_row_of cells ↔
  17 ≤ length cells ∧
  ∃ c2 c3 c6 c8 c11,
    cells !! 2 = Some c2 ∧ cells !! 3 = Some c3 ∧ cells !! 6 = Some c6 ∧
    cells !! 8 = Some c8 ∧ cells !! 11 = Some c11 ∧
    r = {| tt_code := Dom.get_text_strip c2;
           tt_station_name := Dom.get_text_strip c3;
           tt_arrives := Dom.get_text_strip c6;
           tt_departs := Dom.get_text_strip c8;
           tt_platform := Dom.get_text_strip c11 |}.
Proof.
  unfold stop_row_of. split.
  - destruct (cells !! 2) as [c2|]; [|by intros ?%elem_of_nil].
    destruct (cells !! 3) as [c3|]; [|by intros ?%elem_of_nil].
    destruct (cells !! 6) as [c6|]; [|by intros ?%elem_of_nil].
    destruct (cells !! 8) as [c8|]; [|by intros ?%elem_of_nil].
    destruct (cells !! 11) as [c11|]; [|by intros ?%elem_of_nil].
    case_bool_decide; [|by intros ?%elem_of_nil].
    intros ->%list_elem_of_singleton. split; [done|].
    by exists c2, c3, c6, c8, c11.
  - intros (Hlen & c2 & c3 & c6 & c8 & c11 & -> & -> & -> & -> & -> & ->).
    rewrite bool_decide_eq_true_2 by done. by apply list_elem_of_singleton.
Qed.

(** C6. The timetable extraction never raises. It returns, in page
    order, one row for each stop marker whose parent has at least 17
    direct child [div]s and nothing for the other markers, after which
    the scan goes on. An emitted row takes its code from the cell at
    position 2, its station name from position 3, its arrival from
    position 6, its departure from position 8 and its platform from
    position 11. *)
Theorem timetable_rows_min_cells soup :
  ∃ rows,
    timetable soup = Ok rows ∧
    rows = (select_stop_markers soup ≫= stop_row_of ∘ stop_cells) ∧
    ∀ r, r ∈ rows ↔
      ∃ m c2 c3 c6 c8 c11,
        m ∈ select_stop_markers soup ∧
        17 ≤ length (Dom.find_children "div" (Dom.parent m)) ∧
        Dom.find_children "div" (Dom.parent m) !! 2 = Some c2 ∧
        Dom.find_children "div" (Dom.parent m) !! 3 = Some c3 ∧
        Dom.find_children "div" (Dom.parent m) !! 6 = Some c6 ∧
        Dom.find_children "div" (Dom.parent m) !! 8 = Some c8 ∧
        Dom.find_children "div" (Dom.parent m) !! 11 = Some c11 ∧
        r = {| tt_code := Dom.get_text_strip c2;
               tt_station_name := Dom.get_text_strip c3;
               tt_arrives := Dom.get_text_strip c6;
               tt_departs := Dom.get_text_strip c8;
               tt_platform := Dom.get_text_strip c11 |}.
Proof.
  eexists. split; [apply timetable_total|]. split; [done|].
  intros r. rewrite list_elem_of_bind. split.
  - intros (m & Hr & Hm).
    apply stop_row_of_elem in Hr as (Hlen & c2 & c3 & c6 & c8 & c11 & H).
    by exists m, c2, c3, c6, c8, c11.
  - intros (m & c2 & c3 & c6 & c8 & c11 & Hm & Hlen & H).
    exists m. split; [|done].
    apply stop_row_of_elem. split; [done|]. by exists c2, c3, c6, c8, c11.
Qed.

Example timetable_sample :
  timetable Sample.timetable_page
  = Ok [ {| tt_code := "PUNE"; tt_station_name := "Pune Junction";
            tt_arrives := "start"; tt_departs := "07:15"; tt_platform := "1" |};
         {| tt_code := "CSMT"; tt_station_name := "Mumbai CSMT";
            tt_arrives := "10:25"; tt_departs := "end"; tt_platform := "9" |} ].
Proof. reflexivity. Qed.

(** ** Result cache *)

(** C7. A value stored under a key is what a read of that key returns
    as long as no more than the six hours of [CACHE_TTL_SECONDS] have
    passed since the write, in particular at once; the read leaves the
    cache as it is. A read of an entry whose timestamp is more than six
    hours old returns a miss and deletes the entry. *)
Theorem cache_set_get_expiry {V : Type} (cache : gmap string (Qc * V)) (k : string) :
  (∀ (v : V) (t_set t_get : Qc),
     (t_get - t_set ≤ CACHE_TTL_SECONDS)%Qc ->
     cache_get t_get k (cache_set t_set k v cache)
     = (Some v, cache_set t_set k v cache)) ∧
  (∀ (ts now : Qc) (v : V),
     cache !! k = Some (ts, v) ->
     (CACHE_TTL_SECONDS < now - ts)%Qc ->
     cache_get now k cache = (None, delete k cache) ∧
     delete k cache !! k = None).
Proof.
  split.
  - intros v t_set t_get Hle. unfold cache_get, cache_set.
    rewrite lookup_insert_eq.
    rewrite bool_decide_eq_false_2; [done|]. by apply Qcle_not_lt.
  - intros ts now v Hk Hlt. unfold cache_get. rewrite Hk.
    rewrite bool_decide_eq_true_2 by done. split; [done|]. apply lookup_delete_eq.
Qed.

Lemma cache_set_get_expiry_witness :
  ((Q2Qc 100 - Q2Qc 100 ≤ CACHE_TTL_SECONDS)%Qc ∧
   cache_get (Q2Qc 100) "station:pune:700"
     (cache_set (Q2Qc 100) "station:pune:700" 7 ∅)
   = (Some 7, cache_set (Q2Qc 100) "station:pune:700" 7 ∅)) ∧
  ((CACHE_TTL_SECONDS < Q2Qc 21701 - Q2Qc 100)%Qc ∧
   cache_get (Q2Qc 21701) "station:pune:700"
     (cache_set (Q2Qc 100) "station:pune:700" 7 ∅)
   = (None, delete "station:pune:700"
              (cache_set (Q2Qc 100) "station:pune:700" 7 ∅)) ∧
   delete "station:pune:700" (cache_set (Q2Qc 100) "station:pune:700" 7 ∅)
     !! "station:pune:700" = None).
Proof.
  split.
  - assert (H : (Q2Qc 100 - Q2Qc 100 ≤ CACHE_TTL_SECONDS)%Qc) by (by vm_compute).
    split; [exact H|].
    exact (proj1 (cache_set_get_expiry ∅ "station:pune:700")
             7 (Q2Qc 100) (Q2Qc 100) H).
  - assert (H : (CACHE_TTL_SECONDS < Q2Qc 21701 - Q2Qc 100)%Qc) by (by vm_compute).
    split; [exact H|].
    exact (proj2 (cache_set_get_expiry
                    (cache_set (Q2Qc 100) "station:pune:700" 7 ∅)
                    "station:pune:700")
             (Q2Qc 100) (Q2Qc 21701) 7 (lookup_insert_eq _ _ _) H).
Defined.

Example cache_ttl_is_six_hours : CACHE_TTL_SECONDS = Q2Qc 21600.
Proof. by apply Qc_is_canon. Qed.

(** ** Destination parameter *)

(** C10, as the code has it. The destination is stripped of surrounding
    whitespace before it is tested. When what is left is empty or the
    string [0], the destination is normalized to [0] and the routed
    layout is read; this covers a missing value, an empty one, one made
    of whitespace only and the literal [0], which all read as no
    destination. When what is left is anything else, it is the
    destination and the direct layout is read. *)
Theorem dest_normalization (raw : option string) :
  let d := Text.strip (default EmptyString raw) in
  (d = EmptyString ∨ d = "0" ->
   normalize_dest raw = "0" ∧ with_destination (normalize_dest raw) = false) ∧
  (d ≠ EmptyString -> d ≠ "0" ->
   normalize_dest raw = d ∧ with_destination (normalize_dest raw) = true) ∧
  (raw = None ∨ (∃ s, raw = Some s ∧ Text.all_chars Text.is_space s = true)
   ∨ raw = Some "0" ->
   normalize_dest raw = "0" ∧ normalize_dest raw = normalize_dest None).
Proof.
  cbv zeta. unfold normalize_dest.
  set (d := Text.strip (default EmptyString raw)).
  assert (H0 : d = EmptyString ∨ d = "0" ->
               (if Text.truthy d then d else "0") = "0").
  { intros [->| ->]; done. }
  split; [|split].
  - intros H. rewrite (H0 H). done.
  - intros Hne H0'. apply truthy_nonempty in Hne. rewrite Hne. split; [done|].
    unfold with_destination. by destruct (String.eqb_spec d "0").
  - intros H. rewrite H0; [done|]. subst d.
    destruct H as [->|[(s & -> & Hs)| ->]]; [by left| |by right].
    left. by apply strip_whitespace_only.
Qed.

Lemma dest_normalization_witness :
  (Text.strip (default EmptyString (Some " 1620 ")) ≠ EmptyString ∧
   Text.strip (default EmptyString (Some " 1620 ")) ≠ "0") ∧
  normalize_dest (Some " 1620 ") = "1620" ∧
  with_destination (normalize_dest (Some " 1620 ")) = true.
Proof.
  assert (H1 : Text.strip (default EmptyString (Some " 1620 ")) ≠ EmptyString)
    by (vm_compute; discriminate).
  assert (H2 : Text.strip (default EmptyString (Some " 1620 ")) ≠ "0")
    by (vm_compute; discriminate).
  split; [by split|].
  exact (proj1 (proj2 (dest_normalization (Some " 1620 "))) H1 H2).
Defined.

(** C10 as the specification words it fails: the value [" 0"] is not
    missing, not empty, not made of whitespace only and not the literal
    [0], yet it is normalized to [0] and the routed layout is read. *)
Lemma dest_padded_zero_routed :
  Some " 0" ≠ None ∧ Some " 0" ≠ Some EmptyString ∧
  Text.all_chars Text.is_space " 0" = false ∧ Some " 0" ≠ Some "0" ∧
  normalize_dest (Some " 0") = "0" ∧
  with_destination (normalize_dest (Some " 0")) = false.
Proof. repeat split; done. Qed.

(** ** Geocoding and points of interest *)

Section GeoProperties.

Context {F : Type} `{PyFloat F} (zero : F) (py_float : string -> option F).

(** The tags of a point of interest are those of its element, and its
    flag is computed from them. *)
Lemma poi_emergency_of (el : element) (p : POI) :
  poi_of_element zero el = Some p ->
  poi_tags p = default ∅ (el_tags el) ∧
  poi_emergency p = emergency_of (default ∅ (el_tags el)).
Proof.
  unfold poi_of_element.
  destruct (if bool_decide (el_type el = Some "node") then _ else _) as [[la lo]|];
    simpl; [|done].
  assert (Htags : match el_tags el with
                  | Some tg => if bool_decide (tg = ∅) then ∅ else tg
                  | None => ∅
                  end = default ∅ (el_tags el)).
  { destruct (el_tags el) as [tg|]; [|done]. simpl. by case_bool_decide. }
  rewrite Htags. by intros [= <-].
Qed.

Lemma emergency_of_true (tags : gmap string string) :
  emergency_of tags = true ↔
  (∃ a, tags !! "amenity" = Some a ∧
        (Text.contains "police" a = true ∨ Text.contains "hospital" a = true)) ∨
  (∃ v, v ≠ EmptyString ∧
        (tags !! "emergency" = Some v ∨ tags !! "emergency_phone" = Some v ∨
         tags !! "contact:phone" = Some v)).
Proof.
  unfold emergency_of. cbv zeta.
  assert (Hamen : Text.contains "police" (default EmptyString (tags !! "amenity"))
                  || Text.contains "hospital" (default EmptyString (tags !! "amenity"))
                  = true ↔
          ∃ a, tags !! "amenity" = Some a ∧
            (Text.contains "police" a = true ∨ Text.contains "hospital" a = true)).
  { destruct (tags !! "amenity") as [a|]; simpl.
    - rewrite orb_true_iff. split; [by exists a|]. by intros (? & [= <-] & ?).
    - split; [done|]. by intros (? & ? & ?). }
  assert (Htag : truthy_opt (tags !! "emergency")
                 || truthy_opt (tags !! "emergency_phone")
                 || truthy_opt (tags !! "contact:phone") = true ↔
          ∃ v, v ≠ EmptyString ∧
            (tags !! "emergency" = Some v ∨ tags !! "emergency_phone" = Some v ∨
             tags !! "contact:phone" = Some v)).
  { rewrite !orb_true_iff, !truthy_opt_Some. split.
    - intros [[(v & ? & ?)|(v & ? & ?)]|(v & ? & ?)]; exists v; auto.
    - intros (v & ? & [?|[?|?]]); [left; left|left; right|right]; by exists v. }
  rewrite <- Hamen, <- Htag.
  destruct (_ || _); destruct (_ || _ || _); split; auto; intros [|]; done.
Qed.

(** C9, as the code has it. The points of interest are those of the
    elements that are kept, and each carries the tags of its element,
    none when the element has no [tags]. Its emergency flag is set
    exactly when the value of the [amenity] tag of the element contains
    [police] or [hospital], or one of the tags [emergency],
    [emergency_phone] and [contact:phone] of the element is present
    with a non-empty value. *)
Theorem emergency_flag_exact (elements : list element) :
  (∀ p, p ∈ parse_overpass_result zero elements ↔
        ∃ el, el ∈ elements ∧ poi_of_element zero el = Some p) ∧
  ∀ el p, poi_of_element zero el = Some p ->
    let tags := default ∅ (el_tags el) in
    poi_tags p = tags ∧
    (poi_emergency p = true ↔
     (∃ a, tags !! "amenity" = Some a ∧
           (Text.contains "police" a = true ∨ Text.contains "hospital" a = true)) ∨
     (∃ v, v ≠ EmptyString ∧
           (tags !! "emergency" = Some v ∨
            tags !! "emergency_phone" = Some v ∨
            tags !! "contact:phone" = Some v))).
Proof.
  split; [intros p; apply list_elem_of_omap|].
  intros el p [Htags Hflag]%poi_emergency_of. cbv zeta.
  split; [done|]. rewrite Hflag. apply emergency_of_true.
Qed.

(** C5, as the code has it. A successful reply with no result makes
    [geocode_station] return [None], a value and not an exception, and
    the caller answers 502 with the text [Geocoding failed]. A reply
    with another status than 200 gives the same [None] and the same
    answer, so the two are not told apart. Only a failure of the
    transport, which raises, is surfaced differently. *)
Theorem geocode_failure_modes :
  geocode_station py_float (Response 200 (Some (JArr []))) = Ok None ∧
  station_map_geocode py_float (Response 200 (Some (JArr [])))
    = Ok (inl {| reply_status := 502; reply_error := "Geocoding failed" |}) ∧
  (∀ status_code body, status_code ≠ 200%Z ->
     geocode_station py_float (Response status_code body) = Ok None ∧
     station_map_geocode py_float (Response status_code body)
     = station_map_geocode py_float (Response 200 (Some (JArr [])))) ∧
  geocode_station py_float Transport_failure = Raised ∧
  station_map_geocode py_float Transport_failure = Raised.
Proof.
  split; [done|]. split; [done|]. split; [|done].
  intros st body Hst. unfold station_map_geocode, geocode_station.
  destruct (Z.eqb_spec st 200); [done|]. done.
Qed.

End GeoProperties.

(** The three samples of the specification, through the theorem: a
    hospital is flagged, a bus stop is not, and a bus stop that gives a
    telephone number is. *)
Lemma emergency_flag_exact_witness :
  (∃ p, parse_overpass_result 0%Qc [Sample.hospital_node] = [p] ∧
        poi_emergency p = true) ∧
  (∃ p, parse_overpass_result 0%Qc [Sample.bus_stop_node] = [p] ∧
        poi_emergency p ≠ true) ∧
  (∃ p, parse_overpass_result 0%Qc [Sample.phone_node] = [p] ∧
        poi_emergency p = true).
Proof.
  pose proof (proj2 (emergency_flag_exact 0%Qc
                       [Sample.hospital_node; Sample.bus_stop_node;
                        Sample.phone_node])) as Hflag.
  assert (Hone : ∀ el, parse_overpass_result 0%Qc [el]
                       = match poi_of_element 0%Qc el with
                         | Some p => [p]
                         | None => []
                         end) by reflexivity.
  split; [|split].
  - destruct (poi_of_element 0%Qc Sample.hospital_node) as [p|] eqn:Hp;
      [|by vm_compute in Hp].
    exists p. split; [by rewrite Hone, Hp|].
    apply (proj2 (Hflag _ _ Hp)). left. exists "hospital".
    split; [reflexivity|]. by right.
  - destruct (poi_of_element 0%Qc Sample.bus_stop_node) as [p|] eqn:Hp;
      [|by vm_compute in Hp].
    exists p. split; [by rewrite Hone, Hp|].
    intros [(a & Ha & Hc)|(v & Hv & Hk)]%(proj2 (Hflag _ _ Hp)).
    + vm_compute in Ha. injection Ha as <-. by destruct Hc.
    + vm_compute in Hk. by destruct Hk as [?|[?|?]].
  - destruct (poi_of_element 0%Qc Sample.phone_node) as [p|] eqn:Hp;
      [|by vm_compute in Hp].
    exists p. split; [by rewrite Hone, Hp|].
    apply (proj2 (Hflag _ _ Hp)). right. exists "+91 20 2612 6575".
    split; [done|]. right. right. reflexivity.
Defined.

(** C9 as the specification words it fails: the [emergency] tag of
    [Sample.empty_emergency_node] is present, with an empty value, and
    the flag of its point of interest is not set. *)
Lemma emergency_empty_tag_value :
  (∃ tags, el_tags Sample.empty_emergency_node = Some tags ∧
           is_Some (tags !! "emergency")) ∧
  ∃ p, parse_overpass_result 0%Qc [Sample.empty_emergency_node] = [p] ∧
       is_Some (poi_tags p !! "emergency") ∧ poi_emergency p = false.
Proof.
  split; [eexists; split; [reflexivity|by eexists]|].
  eexists. split; [vm_compute; reflexivity|]. split; [by eexists|done].
Qed.

Example emergency_hospital :
  emergency_of {[ "amenity" := "hospital" ]} = true.
Proof. reflexivity. Qed.

Example emergency_bus_stop :
  emergency_of {[ "amenity" := "bus_stop" ]} = false.
Proof. reflexivity. Qed.

(** A non-empty [contact:phone] sets the flag whatever the amenity. *)
Lemma emergency_contact_phone (tags : gmap string string) (v : string) :
  tags !! "contact:phone" = Some v -> v ≠ EmptyString -> emergency_of tags = true.
Proof.
  intros Hv Hne. apply emergency_of_true. right. exists v. auto.
Qed.

Lemma geocode_failure_modes_witness :
  (503 ≠ 200)%Z ∧
  geocode_station Sample.no_float (Response 503 None) = Ok None ∧
  station_map_geocode Sample.no_float (Response 503 None)
  = station_map_geocode Sample.no_float (Response 200 (Some (JArr []))).
Proof.
  assert (H : (503 ≠ 200)%Z) by lia.
  split; [exact H|].
  exact (proj1 (proj2 (proj2 (geocode_failure_modes Sample.no_float))) 503%Z None H).
Defined.

(** C5 as the specification words it fails: a reply with status 503 and
    a successful reply with no result give the same value and the same
    answer to the client. *)
Lemma geocode_status_not_distinct :
  geocode_station Sample.no_float (Response 503 None)
  = geocode_station Sample.no_float (Response 200 (Some (JArr []))) ∧
  station_map_geocode Sample.no_float (Response 503 None)
  = station_map_geocode Sample.no_float (Response 200 (Some (JArr []))).
Proof. split; reflexivity. Qed.

(** * Further properties of the code *)

(** ** Result cache *)

(** X1. A read or a write of one key leaves the entry under any other
    key as it was. *)
Theorem cache_other_keys_untouched {V : Type} (cache : gmap string (Qc * V))
    (k k' : string) (now : Qc) (v : V) :
  k ≠ k' ->
  (cache_get now k cache).2 !! k' = cache !! k' ∧
  cache_set now k v cache !! k' = cache !! k'.
Proof.
  intros Hne. split.
  - unfold cache_get. destruct (cache !! k) as [[ts w]|]; [|done].
    case_bool_decide; [|done]. simpl. by rewrite lookup_delete_ne.
  - unfold cache_set. by rewrite lookup_insert_ne.
Qed.

Lemma cache_other_keys_untouched_witness :
  "coords:1:2:700" ≠ "station:pune:700" ∧
  (cache_get (Q2Qc 90000) "coords:1:2:700"
     (cache_set (Q2Qc 100) "coords:1:2:700" 5
        (cache_set (Q2Qc 100) "station:pune:700" 7 ∅))).2 !! "station:pune:700"
  = cache_set (Q2Qc 100) "coords:1:2:700" 5
      (cache_set (Q2Qc 100) "station:pune:700" 7 ∅) !! "station:pune:700".
Proof.
  assert (H : "coords:1:2:700" ≠ "station:pune:700") by discriminate.
  split; [exact H|].
  exact (proj1 (cache_other_keys_untouched
                  (cache_set (Q2Qc 100) "coords:1:2:700" 5
                     (cache_set (Q2Qc 100) "station:pune:700" 7 ∅))
                  "coords:1:2:700" "station:pune:700" (Q2Qc 90000) 0 H)).
Defined.

(** X2. The lifetime of an entry runs from its write: a read that hits
    does not refresh the timestamp, so a later read more than six hours
    after the write misses and deletes the entry, whatever was read in
    between. *)
Theorem cache_reads_do_not_extend_lifetime {V : Type}
    (cache : gmap string (Qc * V)) (k : string) (v : V) (t0 t1 t2 : Qc) :
  (t1 - t0 ≤ CACHE_TTL_SECONDS)%Qc ->
  (CACHE_TTL_SECONDS < t2 - t0)%Qc ->
  cache_get t1 k (cache_set t0 k v cache) = (Some v, cache_set t0 k v cache) ∧
  cache_get t2 k (cache_get t1 k (cache_set t0 k v cache)).2
  = (None, delete k cache).
Proof.
  intros H1 H2.
  assert (E1 : cache_get t1 k (cache_set t0 k v cache)
               = (Some v, cache_set t0 k v cache)).
  { unfold cache_get, cache_set. rewrite lookup_insert_eq.
    rewrite bool_decide_eq_false_2; [done|]. by apply Qcle_not_lt. }
  split; [exact E1|]. rewrite E1. simpl.
  unfold cache_get, cache_set. rewrite lookup_insert_eq.
  rewrite bool_decide_eq_true_2 by done. by rewrite delete_insert_eq.
Qed.

Lemma cache_reads_do_not_extend_lifetime_witness :
  ((Q2Qc 21000 - Q2Qc 100 ≤ CACHE_TTL_SECONDS)%Qc ∧
   (CACHE_TTL_SECONDS < Q2Qc 21800 - Q2Qc 100)%Qc) ∧
  cache_get (Q2Qc 21800) "station:pune:700"
    (cache_get (Q2Qc 21000) "station:pune:700"
       (cache_set (Q2Qc 100) "station:pune:700" 7 ∅)).2
  = (None, delete "station:pune:700" ∅).
Proof.
  assert (H1 : (Q2Qc 21000 - Q2Qc 100 ≤ CACHE_TTL_SECONDS)%Qc) by (by vm_compute).
  assert (H2 : (CACHE_TTL_SECONDS < Q2Qc 21800 - Q2Qc 100)%Qc) by (by vm_compute).
  split; [by split|].
  exact (proj2 (cache_reads_do_not_extend_lifetime ∅ "station:pune:700" 7
                  (Q2Qc 100) (Q2Qc 21000) (Q2Qc 21800) H1 H2)).
Defined.

(** X3. A read never serves a stale or invented value: a hit returns a
    value that is stored under the key with a timestamp at most six
    hours old and leaves the cache as it is; after a miss the key is
    absent, nothing was added, and the key was absent before or its
    entry was more than six hours old. *)
Theorem cache_get_never_stale {V : Type} (cache cache' : gmap string (Qc * V))
    (k : string) (now : Qc) (r : option V) :
  cache_get now k cache = (r, cache') ->
  match r with
  | Some v => cache' = cache ∧
              ∃ ts, cache !! k = Some (ts, v) ∧ (now - ts ≤ CACHE_TTL_SECONDS)%Qc
  | None => cache' !! k = None ∧ cache' ⊆ cache ∧
            (cache !! k = None ∨
             ∃ ts v, cache !! k = Some (ts, v) ∧ (CACHE_TTL_SECONDS < now - ts)%Qc)
  end.
Proof.
  unfold cache_get. destruct (cache !! k) as [[ts w]|] eqn:Hk.
  - case_bool_decide as Hlt; intros [= <- <-].
    + split; [apply lookup_delete_eq|]. split; [apply delete_subseteq|].
      right. by exists ts, w.
    + split; [done|]. exists ts. split; [done|]. by apply Qcnot_lt_le.
  - intros [= <- <-]. split; [done|]. split; [done|]. by left.
Qed.

Lemma cache_get_never_stale_witness :
  cache_get (Q2Qc 200) "station:pune:700"
    (cache_set (Q2Qc 100) "station:pune:700" 7 ∅)
  = (Some 7, cache_set (Q2Qc 100) "station:pune:700" 7 ∅) ∧
  ∃ ts, cache_set (Q2Qc 100) "station:pune:700" 7 ∅ !! "station:pune:700"
        = Some (ts, 7) ∧
        (Q2Qc 200 - ts ≤ CACHE_TTL_SECONDS)%Qc.
Proof.
  assert (H : cache_get (Q2Qc 200) "station:pune:700"
                (cache_set (Q2Qc 100) "station:pune:700" 7 ∅)
              = (Some 7, cache_set (Q2Qc 100) "station:pune:700" 7 ∅))
    by (vm_compute; reflexivity).
  split; [exact H|].
  exact (proj2 (cache_get_never_stale _ _ _ _ _ H)).
Defined.

(** ** Slug normalizer *)

Lemma all_chars_ext p q s :
  (∀ c, p c = q c) -> Text.all_chars p s = Text.all_chars q s.
Proof. intros H. induction s as [|c s IH]; simpl; [done|]. by rewrite H, IH. Qed.

Lemma all_chars_app p a b :
  Text.all_chars p (a +:+ b) = Text.all_chars p a && Text.all_chars p b.
Proof.
  induction a as [|c a IH]; simpl; [done|]. by rewrite IH, andb_assoc.
Qed.

Lemma all_chars_lower p s :
  Text.all_chars p (Text.lower s) = Text.all_chars (fun c => p (Text.lower_char c)) s.
Proof. induction s as [|c s IH]; simpl; [done|]. by rewrite IH. Qed.

Lemma all_chars_replace p old new s :
  Text.all_chars p (Text.replace_char old new s)
  = Text.all_chars (fun c => if Ascii.eqb c old then Text.all_chars p new else p c) s.
Proof.
  induction s as [|c s IH]; simpl; [done|].
  destruct (Ascii.eqb c old); simpl; [|by rewrite IH].
  by rewrite all_chars_app, IH.
Qed.

Lemma all_chars_keep_of p q s :
  Text.all_chars p (Text.keep q s)
  = Text.all_chars (fun c => implb (q c) (p c)) s.
Proof.
  induction s as [|c s IH]; simpl; [done|].
  destruct (q c); simpl; by rewrite IH.
Qed.

Lemma all_chars_squeeze_eq p c s :
  Text.all_chars p (Text.squeeze c s) = Text.all_chars p s.
Proof.
  induction s as [|d s IH]; [done|]. cbn [Text.squeeze Text.all_chars].
  destruct (Ascii.eqb d c && Text.starts_with_char c s) eqn:E.
  - apply andb_true_iff in E as [->%Ascii.eqb_eq Hs]. rewrite IH.
    destruct s as [|e s]; [done|]. simpl in Hs. apply Ascii.eqb_eq in Hs as ->.
    cbn [Text.all_chars]. by destruct (p c).
  - cbn [Text.all_chars]. by rewrite IH.
Qed.

Lemma rstrip_empty_iff p s :
  Text.rstrip p s = EmptyString ↔ Text.all_chars p s = true.
Proof.
  induction s as [|c s IH]; [done|].
  rewrite rstrip_cons. simpl.
  destruct (Text.rstrip p s) eqn:E; simpl.
  - destruct (p c); simpl; [|done]. split; [intros _; by apply IH|done].
  - split; [done|]. intros [_ H]%andb_true_iff. apply IH in H. done.
Qed.

Lemma lstrip_all_chars p s :
  Text.all_chars p (Text.lstrip p s) = Text.all_chars p s.
Proof.
  induction s as [|c s IH]; simpl; [done|].
  destruct (p c) eqn:E; simpl; [done|]. by rewrite E.
Qed.

Lemma strip_by_empty_iff p s :
  Text.strip_by p s = EmptyString ↔ Text.all_chars p s = true.
Proof.
  unfold Text.strip_by. by rewrite rstrip_empty_iff, lstrip_all_chars.
Qed.

(** X4. The slug of a text is empty exactly when the text holds no
    letter of A-Z or a-z, no digit and no ampersand: every other
    character is dropped or becomes a hyphen, and hyphens alone are
    trimmed away. *)
Theorem slugify_empty_iff (x : string) :
  slugify x = EmptyString ↔ Text.all_chars (fun c => negb (slug_letter c)) x = true.
Proof.
  unfold slugify. rewrite strip_by_empty_iff, all_chars_squeeze_eq.
  rewrite all_chars_keep_of, !all_chars_replace, all_chars_lower.
  erewrite all_chars_ext; [done|].
  intros c. destruct c as [[] [] [] [] [] [] [] []]; reflexivity.
Qed.

Lemma length_app_string a b :
  String.length (a +:+ b) = String.length a + String.length b.
Proof. induction a as [|c a IH]; simpl; [done|]. by rewrite IH. Qed.

Lemma length_lower s : String.length (Text.lower s) = String.length s.
Proof. induction s as [|c s IH]; simpl; [done|]. by rewrite IH. Qed.

Lemma length_replace_char old new s :
  String.length (Text.replace_char old new s)
  ≤ Nat.max 1 (String.length new) * String.length s.
Proof.
  induction s as [|c s IH]; simpl; [lia|].
  destruct (Ascii.eqb c old); simpl; [rewrite length_app_string|]; lia.
Qed.

Lemma length_keep p s : String.length (Text.keep p s) ≤ String.length s.
Proof. induction s as [|c s IH]; simpl; [done|]. destruct (p c); simpl; lia. Qed.

Lemma length_squeeze c s : String.length (Text.squeeze c s) ≤ String.length s.
Proof.
  induction s as [|d s IH]; [done|]. cbn [Text.squeeze].
  destruct (_ && _); simpl; lia.
Qed.

Lemma length_lstrip p s : String.length (Text.lstrip p s) ≤ String.length s.
Proof. induction s as [|c s IH]; simpl; [done|]. destruct (p c); simpl; lia. Qed.

Lemma length_rstrip p s : String.length (Text.rstrip p s) ≤ String.length s.
Proof.
  induction s as [|c s IH]; [done|]. rewrite rstrip_cons.
  destruct (_ || _); simpl; lia.
Qed.

(** X5. A slug is at most three times as long as its text; only the
    ampersand, written out as [and], makes it longer than the text. *)
Theorem slugify_length (x : string) :
  String.length (slugify x) ≤ 3 * String.length x.
Proof.
  unfold slugify, Text.strip_by.
  etrans; [apply length_rstrip|]. etrans; [apply length_lstrip|].
  etrans; [apply length_squeeze|]. etrans; [apply length_keep|].
  etrans; [apply length_replace_char|]. simpl Nat.max.
  apply Nat.mul_le_mono_l.
  etrans; [apply length_replace_char|]. simpl Nat.max. rewrite Nat.mul_1_l.
  etrans; [apply length_replace_char|]. simpl Nat.max. rewrite Nat.mul_1_l.
  etrans; [apply length_replace_char|]. simpl Nat.max. rewrite Nat.mul_1_l.
  etrans; [apply length_replace_char|]. simpl Nat.max. rewrite Nat.mul_1_l.
  by rewrite length_lower.
Qed.

Example slugify_length_tight : String.length (slugify "&&") = 3 * String.length "&&".
Proof. reflexivity. Qed.

(** ** Timetable links *)

Lemma append_assoc (a b c : string) : (a +:+ b) +:+ c = a +:+ b +:+ c.
Proof.
  induction a as [|x a IH]; [done|].
  change (String x ((a +:+ b) +:+ c) = String x (a +:+ b +:+ c)). by rewrite IH.
Qed.

Lemma is_prefix_app p s : Text.is_prefix p (p +:+ s) = true.
Proof.
  induction p as [|c p IH]; simpl; [done|]. by rewrite Ascii.eqb_refl, IH.
Qed.

Lemma drop_app p s : Text.drop (String.length p) (p +:+ s) = s.
Proof. induction p as [|c p IH]; simpl; [done|]. exact IH. Qed.

Lemma span_app p a b :
  Text.all_chars p a = true ->
  match b with String c _ => p c = false | EmptyString => True end ->
  Text.span p (a +:+ b) = (a, b).
Proof.
  intros Ha Hb. induction a as [|c a IH]; simpl.
  - destruct b as [|c b]; [done|]. simpl. by rewrite Hb.
  - apply andb_true_iff in Ha as [Hc Ha]. by rewrite Hc, IH.
Qed.

(** A path written as the code writes it is matched at its start. *)
Lemma timetable_search_built slug id tail :
  slug ≠ EmptyString -> Text.all_chars no_slash slug = true ->
  id ≠ EmptyString -> Text.all_chars Text.is_digit id = true ->
  match tail with String c _ => Text.is_digit c = false | EmptyString => True end ->
  timetable_search (timetable_marker +:+ slug +:+ "/" +:+ id +:+ tail)
  = Some (slug, id).
Proof.
  intros Hs Hsl Hi Hid Htail.
  assert (H : timetable_match_here
                (timetable_marker +:+ slug +:+ "/" +:+ id +:+ tail)
              = Some (slug, id)).
  { unfold timetable_match_here. rewrite is_prefix_app, drop_app.
    rewrite (span_app _ slug) by done.
    destruct slug as [|c slug]; [done|].
    change ("/" +:+ id +:+ tail) with (String "/" (id +:+ tail)).
    cbv iota beta. rewrite (span_app _ id tail) by done.
    apply truthy_nonempty in Hi. by rewrite Hi. }
  destruct (timetable_marker +:+ slug +:+ "/" +:+ id +:+ tail);
    cbn [timetable_search]; by rewrite H.
Qed.

(** X6. When the timetable anchor of a block matches the pattern, the
    identifier taken from it is all digits, the link of the record is
    rebuilt from the slug and the identifier of the page beside the
    station and the destination, and the pattern applied to that link
    gives the same slug and identifier back. *)
Theorem departures_canonical_link_round_trip station_id dest blk r slug id :
  departure_of_block station_id dest blk = Some r ->
  anchor_match (find_name_anchor (Dom.here blk)) = Some (slug, id) ->
  Text.all_chars Text.is_digit id = true ∧
  dr_train_url r
  = Some (timetable_marker +:+ slug +:+ "/" +:+ id +:+ "/" +:+ station_id
          +:+ "/" +:+ dest) ∧
  timetable_search (timetable_marker +:+ slug +:+ "/" +:+ id +:+ "/"
                    +:+ station_id +:+ "/" +:+ dest)
  = Some (slug, id).
Proof.
  intros Hr Ha.
  assert (Hg : slug ≠ EmptyString ∧ Text.all_chars no_slash slug = true ∧
               id ≠ EmptyString ∧ Text.all_chars Text.is_digit id = true).
  { unfold anchor_match in Ha. destruct (find_name_anchor _) as [a|]; [|done].
    simpl in Ha. by apply timetable_search_groups in Ha. }
  destruct Hg as (Hs & Hsl & Hi & Hid).
  split; [done|]. split.
  - apply departure_of_block_Some in Hr. cbv zeta in Hr.
    destruct Hr as (tn & nm & _ & _ & _ & _ & _ & _ & _ & _ & _ & _ & _ & _ & _ & Hurl).
    rewrite Hurl. unfold internal_id_of. rewrite Ha. simpl.
    apply truthy_nonempty in Hi, Hs. rewrite Hi. cbv iota beta. by rewrite Hi, Hs.
  - by apply timetable_search_built.
Qed.

Lemma departures_canonical_link_round_trip_witness :
  (departure_of_block "57" "0" Fixture.train_located
   = Some Sample.deccan_queen_routed ∧
   anchor_match (find_name_anchor (Dom.here Fixture.train_located))
   = Some ("deccan-queen-12124", "1042")) ∧
  timetable_search "/train/timetable/deccan-queen-12124/1042/57/0"
  = Some ("deccan-queen-12124", "1042").
Proof.
  assert (H1 : departure_of_block "57" "0" Fixture.train_located
               = Some Sample.deccan_queen_routed) by reflexivity.
  assert (H2 : anchor_match (find_name_anchor (Dom.here Fixture.train_located))
               = Some ("deccan-queen-12124", "1042")) by reflexivity.
  split; [by split|].
  exact (proj2 (proj2 (departures_canonical_link_round_trip "57" "0"
                         Fixture.train_located Sample.deccan_queen_routed
                         "deccan-queen-12124" "1042" H1 H2))).
Defined.

(** Every link has the shape the f-string gives it. *)
Lemma train_url_shape station_id dest blk r link :
  departure_of_block station_id dest blk = Some r ->
  dr_train_url r = Some link ->
  ∃ slug id,
    link = timetable_marker +:+ slug +:+ "/" +:+ id +:+ "/" +:+ station_id
           +:+ "/" +:+ dest.
Proof.
  intros Hr Hlink. apply departure_of_block_Some in Hr. cbv zeta in Hr.
  destruct Hr as (tn & nm & _ & _ & _ & _ & _ & _ & _ & _ & _ & _ & _ & _ & _ & Hurl).
  rewrite Hurl in Hlink.
  destruct (internal_id_of blk) as [id|]; [|done].
  destruct (Text.truthy id); [|done].
  injection Hlink as <-. by eexists _, id.
Qed.

Lemma rstrip_app_nonempty p a b :
  Text.rstrip p b ≠ EmptyString ->
  Text.rstrip p (a +:+ b) = a +:+ Text.rstrip p b.
Proof.
  intros Hb. induction a as [|c a IH]; [done|].
  change (String c a +:+ b) with (String c (a +:+ b)).
  rewrite rstrip_cons, IH.
  assert (Ht : Text.truthy (a +:+ Text.rstrip p b) = true).
  { apply truthy_nonempty. destruct a; [done|]. done. }
  by rewrite Ht.
Qed.

Lemma rstrip_idem p s : Text.rstrip p (Text.rstrip p s) = Text.rstrip p s.
Proof.
  induction s as [|c s IH]; [done|]. rewrite rstrip_cons.
  destruct (Text.truthy (Text.rstrip p s) || negb (p c)) eqn:E; [|done].
  by rewrite rstrip_cons, IH, E.
Qed.

Lemma normalize_dest_stripped raw :
  normalize_dest raw ≠ EmptyString ∧
  Text.rstrip Text.is_space (normalize_dest raw) = normalize_dest raw.
Proof.
  unfold normalize_dest.
  destruct (Text.truthy (Text.strip (default EmptyString raw))) eqn:E; [|done].
  split; [by apply truthy_nonempty|].
  unfold Text.strip, Text.strip_by. apply rstrip_idem.
Qed.

Lemma strip_link raw prefix :
  Text.strip (String "/" (prefix +:+ normalize_dest raw))
  = String "/" (prefix +:+ normalize_dest raw).
Proof.
  destruct (normalize_dest_stripped raw) as [Hne Hr].
  unfold Text.strip, Text.strip_by. cbn [Text.lstrip].
  change (Text.is_space "/") with false. cbv iota.
  rewrite rstrip_cons_not by done.
  rewrite rstrip_app_nonempty; by rewrite Hr.
Qed.

(** ** The handlers of the scraping endpoints *)

(** With an extraction that never raises, only the fetch decides
    between a 200 and a 500. *)
Lemma scrape_total {A : Type} (get : string -> fetched) (url : string)
    (extract : node -> result A) (g : node -> A) :
  (∀ soup, extract soup = Ok (g soup)) ->
  scrape get url extract =
  match get url with
  | Fetch_failed => Crash
  | Fetched status_code soup =>
      if raises_for_status status_code then Crash else Success (g soup)
  end.
Proof.
  intros H. unfold scrape. destruct (get url) as [|st soup]; [done|].
  destruct (raises_for_status st); [done|]. by rewrite H.
Qed.

(** What a fetch leads to when the extraction [g] cannot raise. *)
Lemma scrape_cases {A : Type} (get : string -> fetched) (url : string)
    (extract : node -> result A) (g : node -> A) :
  (∀ soup, extract soup = Ok (g soup)) ->
  match scrape get url extract with
  | Failure _ _ => False
  | Crash =>
      get url = Fetch_failed ∨
      ∃ status_code soup,
        get url = Fetched status_code soup ∧ (400 ≤ status_code < 600)%Z
  | Success results =>
      ∃ status_code soup,
        get url = Fetched status_code soup ∧ ¬ (400 ≤ status_code < 600)%Z ∧
        results = g soup
  end.
Proof.
  intros H. rewrite (scrape_total _ _ _ _ H).
  destruct (get url) as [|st soup]; [by left|].
  unfold raises_for_status.
  destruct (Z.leb_spec 400 st), (Z.ltb_spec st 600); simpl.
  - right. exists st, soup. auto with lia.
  - exists st, soup. repeat split; try done. lia.
  - exists st, soup. repeat split; try done. lia.
  - exists st, soup. repeat split; try done. lia.
Qed.

Lemma station_search_total soup :
  station_search soup = Ok (examined_pairs (select_dropdown_rows soup)).
Proof. apply station_rows_examined. Qed.

Lemma timetable_never_raises soup :
  timetable soup = Ok (select_stop_markers soup ≫= stop_row_of ∘ stop_cells).
Proof. apply timetable_total. Qed.

Section HandlerProperties.

Context {F : Type} `{PyFloat F}.
Context (float_str : F -> string) (repr : json F -> string).

Lemma is_str_eq (k : string) (v : json F) :
  Json.is_str k v = true ↔ v = JStr k.
Proof.
  destruct v; simpl; try (split; [done|by intros [=]]).
  rewrite String.eqb_eq. split; [by intros ->|by intros [= ->]].
Qed.

Lemma existsb_is_str (k : string) (items : list (json F)) :
  existsb (Json.is_str k) items = true ↔ JStr k ∈ items.
Proof.
  rewrite existsb_exists. split.
  - intros (v & Hin & ->%is_str_eq). by apply list_elem_of_In.
  - intros Hin. exists (JStr k). split; [by apply list_elem_of_In|].
    by apply is_str_eq.
Qed.

(** The guard raises on the bodies of [breaks_guard]. *)
Lemma required_field_breaks (data : json F) (k : string) :
  breaks_guard k data -> required_field float_str repr data k = Raised.
Proof.
  intros [Ht Hshape]. unfold required_field. rewrite Ht. simpl.
  destruct Hshape as [[n ->]|[[x ->]|[[b ->]|[(s & -> & Hs)|(items & -> & Hin)]]]];
    simpl; try done.
  - by rewrite Hs.
  - apply existsb_is_str in Hin. by rewrite Hin.
Qed.

(** The guard answers on the bodies of [lacks_field]. *)
Lemma required_field_lacks (data : json F) (k : string) :
  lacks_field k data -> required_field float_str repr data k = Ok None.
Proof.
  unfold required_field.
  intros [Ht|[(fields & -> & Hk)|[(s & -> & Hs)|(items & -> & Hin)]]].
  - by rewrite Ht.
  - destruct (Json.truthy (JObj fields)); [|done]. simpl.
    rewrite bool_decide_eq_false_2; [done|]. rewrite Hk. by intros [? ?].
  - destruct (Json.truthy (JStr s)); [|done]. simpl. by rewrite Hs.
  - destruct (Json.truthy (JArr items)); [|done]. simpl.
    destruct (existsb (Json.is_str k) items) eqn:E; [|done].
    by apply existsb_is_str in E.
Qed.

(** An object with the key passes the guard. *)
Lemma required_field_object (fields : gmap string (json F)) (k : string)
    (v : json F) :
  fields !! k = Some v ->
  required_field float_str repr (JObj fields) k
  = Ok (Some (Json.str float_str repr v)).
Proof.
  intros Hv. unfold required_field. simpl.
  rewrite bool_decide_eq_false_2 by (intros ->; by rewrite lookup_empty in Hv).
  simpl. rewrite bool_decide_eq_true_2 by (by eexists). simpl.
  by rewrite Hv.
Qed.

(** The three ways the guard and the subscript end. *)
Lemma required_field_cases (data : json F) (k : string) :
  match required_field float_str repr data k with
  | Raised => breaks_guard k data
  | Ok None => lacks_field k data
  | Ok (Some s) =>
      ∃ fields v, data = JObj fields ∧ fields !! k = Some v ∧
                  s = Json.str float_str repr v
  end.
Proof.
  unfold required_field.
  destruct (Json.truthy data) eqn:Ht; simpl; [|by left].
  destruct data as [|b|n|x|s|items|fields]; simpl.
  - done.
  - split; [done|]. right. right. left. by exists b.
  - split; [done|]. left. by exists n.
  - split; [done|]. right. left. by exists x.
  - destruct (Text.contains k s) eqn:Hs; simpl.
    + split; [done|]. do 3 right. left. by exists s.
    + right. right. left. by exists s.
  - destruct (existsb (Json.is_str k) items) eqn:E; simpl.
    + split; [done|]. do 4 right. exists items. split; [done|].
      by apply existsb_is_str.
    + do 3 right. exists items. split; [done|].
      intros Hin%existsb_is_str. congruence.
  - case_bool_decide as Hk; simpl.
    + destruct Hk as [v Hv]. rewrite Hv. simpl. by exists fields, v.
    + right. left. exists fields. split; [done|].
      destruct (fields !! k) eqn:E; [|done]. exfalso. apply Hk. by eexists.
Qed.

(** X7. Every link that the departures handler hands out is accepted
    by the timetable handler: sent back as [train_url], it passes the
    prefix check unchanged and the page fetched is the one at
    [BASE_URL] followed by the link. *)
Theorem departures_links_pass_timetable_check raw station_id soup r link
    (data : json F) get :
  r ∈ departures station_id (normalize_dest raw) soup ->
  dr_train_url r = Some link ->
  required_field float_str repr data "train_url" = Ok (Some link) ->
  timetable_handler float_str repr data get
  = Ok (scrape get (BASE_URL +:+ link) timetable).
Proof.
  intros (blk & _ & Hr)%departures_elem Hlink Hdata.
  destruct (train_url_shape _ _ _ _ _ Hr Hlink) as (slug & id & ->).
  unfold timetable_handler. rewrite Hdata. unfold mbind, result_bind.
  set (prefix := "train/timetable/" +:+ slug +:+ "/" +:+ id +:+ "/"
                 +:+ station_id +:+ "/").
  assert (E : timetable_marker +:+ slug +:+ "/" +:+ id +:+ "/" +:+ station_id
              +:+ "/" +:+ normalize_dest raw
              = String "/" (prefix +:+ normalize_dest raw)).
  { unfold prefix, timetable_marker. rewrite !append_assoc. reflexivity. }
  cbv zeta. rewrite E, strip_link, <- E. by rewrite is_prefix_app.
Qed.

(** X8. A body that is a truthy number or [bool], a string in which
    [q] occurs or a list with the string [q] makes the station-search
    handler raise before its [try] block. It answers 400 when the body
    is falsy, has no [q], or is an object whose [q] is blank after
    [str] and [strip]. No request is made in these cases. Only an
    object with another [q] leads to a fetch of the list page of the
    stripped query: a failed fetch or a status from 400 to 599 gives
    the 500 reply, and any other fetched page gives 200 with the
    matches of its examined row pairs, whatever the markup of the
    page. *)
Theorem station_search_handler_replies (data : json F) get :
  (breaks_guard "q" data ->
   station_search_handler float_str repr data get = Raised) ∧
  (lacks_field "q" data ->
   station_search_handler float_str repr data get
   = Ok (Failure 400 "JSON body must contain 'q'")) ∧
  (∀ fields v, data = JObj fields -> fields !! "q" = Some v ->
     Text.strip (Json.str float_str repr v) = EmptyString ->
     station_search_handler float_str repr data get
     = Ok (Failure 400 "q cannot be empty")) ∧
  match station_search_handler float_str repr data get with
  | Raised => breaks_guard "q" data
  | Ok (Failure status _) =>
      status = 400%Z ∧
      (lacks_field "q" data ∨
       ∃ fields v, data = JObj fields ∧ fields !! "q" = Some v ∧
         Text.strip (Json.str float_str repr v) = EmptyString) ∧
      ∀ get', station_search_handler float_str repr data get'
              = station_search_handler float_str repr data get
  | Ok Crash =>
      ∃ fields v, data = JObj fields ∧ fields !! "q" = Some v ∧
        let query := Text.strip (Json.str float_str repr v) in
        query ≠ EmptyString ∧
        (get (station_search_url query) = Fetch_failed ∨
         ∃ status_code soup,
           get (station_search_url query) = Fetched status_code soup ∧
           (400 ≤ status_code < 600)%Z)
  | Ok (Success matches) =>
      ∃ fields v status_code soup,
        data = JObj fields ∧ fields !! "q" = Some v ∧
        let query := Text.strip (Json.str float_str repr v) in
        query ≠ EmptyString ∧
        get (station_search_url query) = Fetched status_code soup ∧
        ¬ (400 ≤ status_code < 600)%Z ∧
        matches = examined_pairs (select_dropdown_rows soup)
  end.
Proof.
  unfold station_search_handler.
  split; [by intros ->%required_field_breaks|].
  split; [by intros ->%required_field_lacks|].
  split.
  { intros fields v -> Hv Hblank.
    rewrite (required_field_object _ _ _ Hv). simpl. by rewrite Hblank. }
  pose proof (required_field_cases data "q") as Hcases.
  destruct (required_field float_str repr data "q") as [[q|]|]; simpl;
    [|by auto|done].
  destruct Hcases as (fields & v & -> & Hv & ->).
  destruct (Text.truthy (Text.strip (Json.str float_str repr v))) eqn:Et; simpl.
  - apply truthy_nonempty in Et.
    pose proof (scrape_cases get
                  (station_search_url (Text.strip (Json.str float_str repr v)))
                  station_search _ station_search_total) as Hs.
    destruct (scrape _ _ _) as [matches|?|].
    + destruct Hs as (st & soup & ? & ? & ?). by exists fields, v, st, soup.
    + done.
    + by exists fields, v.
  - split; [done|]. split; [|done]. right. exists fields, v.
    split; [done|]. split; [done|]. by destruct (Text.strip _).
Qed.

(** X9. A body that is a truthy number or [bool], a string in which
    [id] occurs or a list with the string [id] makes the departures
    handler raise before its [try] block. It answers 400 when the body
    is falsy, has no [id], or is an object whose [id] is blank after
    [str] and [strip]. No request is made in these cases. Only an
    object with another [id] leads to a fetch of the search page of
    the stripped station and the normalized destination: a failed
    fetch or a status from 400 to 599 gives the 500 reply, and any
    other fetched page gives 200 with the records of its blocks,
    whatever the markup of the page. *)
Theorem departures_handler_replies (data : json F) get :
  (breaks_guard "id" data ->
   departures_handler float_str repr data get = Raised) ∧
  (lacks_field "id" data ->
   departures_handler float_str repr data get
   = Ok (Failure 400 "JSON body must contain 'id'")) ∧
  (∀ fields v, data = JObj fields -> fields !! "id" = Some v ->
     Text.strip (Json.str float_str repr v) = EmptyString ->
     departures_handler float_str repr data get
     = Ok (Failure 400 "id cannot be empty")) ∧
  match departures_handler float_str repr data get with
  | Raised => breaks_guard "id" data
  | Ok (Failure status _) =>
      status = 400%Z ∧
      (lacks_field "id" data ∨
       ∃ fields v, data = JObj fields ∧ fields !! "id" = Some v ∧
         Text.strip (Json.str float_str repr v) = EmptyString) ∧
      ∀ get', departures_handler float_str repr data get'
              = departures_handler float_str repr data get
  | Ok Crash =>
      ∃ fields v, data = JObj fields ∧ fields !! "id" = Some v ∧
        let station_id := Text.strip (Json.str float_str repr v) in
        let dest :=
          normalize_dest (Json.str float_str repr <$> fields !! "dest") in
        station_id ≠ EmptyString ∧
        (get (departures_url station_id dest) = Fetch_failed ∨
         ∃ status_code soup,
           get (departures_url station_id dest) = Fetched status_code soup ∧
           (400 ≤ status_code < 600)%Z)
  | Ok (Success trains) =>
      ∃ fields v status_code soup,
        data = JObj fields ∧ fields !! "id" = Some v ∧
        let station_id := Text.strip (Json.str float_str repr v) in
        let dest :=
          normalize_dest (Json.str float_str repr <$> fields !! "dest") in
        station_id ≠ EmptyString ∧
        get (departures_url station_id dest) = Fetched status_code soup ∧
        ¬ (400 ≤ status_code < 600)%Z ∧
        trains = departures station_id dest soup
  end.
Proof.
  unfold departures_handler.
  split; [by intros ->%required_field_breaks|].
  split; [by intros ->%required_field_lacks|].
  split.
  { intros fields v -> Hv Hblank.
    rewrite (required_field_object _ _ _ Hv). simpl. by rewrite Hblank. }
  pose proof (required_field_cases data "id") as Hcases.
  destruct (required_field float_str repr data "id") as [[id|]|]; simpl;
    [|by auto|done].
  destruct Hcases as (fields & v & -> & Hv & ->).
  destruct (Text.truthy (Text.strip (Json.str float_str repr v))) eqn:Et; simpl.
  - apply truthy_nonempty in Et.
    set (station_id := Text.strip (Json.str float_str repr v)) in *.
    set (dest := normalize_dest (Json.str float_str repr <$> fields !! "dest")).
    pose proof (scrape_cases get (departures_url station_id dest)
                  (fun soup => Ok (departures station_id dest soup))
                  (departures station_id dest) ltac:(done)) as Hs.
    destruct (scrape _ _ _) as [trains|?|].
    + destruct Hs as (st & soup & ? & ? & ?). by exists fields, v, st, soup.
    + done.
    + by exists fields, v.
  - split; [done|]. split; [|done]. right. exists fields, v.
    split; [done|]. split; [done|]. by destruct (Text.strip _).
Qed.

(** X10. A body that is a truthy number or [bool], a string in which
    [train_url] occurs or a list with the string [train_url] makes the
    timetable handler raise before its [try] block. It answers 400
    when the body is falsy, has no [train_url], or is an object whose
    [train_url], after [str] and [strip], does not start with
    [/train/timetable/]. No request is made in these cases. Only an
    object with another [train_url] leads to a fetch of [BASE_URL]
    followed by the stripped value: a failed fetch or a status from
    400 to 599 gives the 500 reply, and any other fetched page gives
    200 with the rows of its stops, whatever the markup of the page. *)
Theorem timetable_handler_replies (data : json F) get :
  (breaks_guard "train_url" data ->
   timetable_handler float_str repr data get = Raised) ∧
  (lacks_field "train_url" data ->
   timetable_handler float_str repr data get
   = Ok (Failure 400 "JSON must contain 'train_url'")) ∧
  (∀ fields v, data = JObj fields -> fields !! "train_url" = Some v ->
     Text.is_prefix timetable_marker
       (Text.strip (Json.str float_str repr v)) = false ->
     timetable_handler float_str repr data get
     = Ok (Failure 400 "Invalid train_url format")) ∧
  match timetable_handler float_str repr data get with
  | Raised => breaks_guard "train_url" data
  | Ok (Failure status _) =>
      status = 400%Z ∧
      (lacks_field "train_url" data ∨
       ∃ fields v, data = JObj fields ∧ fields !! "train_url" = Some v ∧
         Text.is_prefix timetable_marker
           (Text.strip (Json.str float_str repr v)) = false) ∧
      ∀ get', timetable_handler float_str repr data get'
              = timetable_handler float_str repr data get
  | Ok Crash =>
      ∃ fields v, data = JObj fields ∧ fields !! "train_url" = Some v ∧
        let train_url := Text.strip (Json.str float_str repr v) in
        Text.is_prefix timetable_marker train_url = true ∧
        (get (BASE_URL +:+ train_url) = Fetch_failed ∨
         ∃ status_code soup,
           get (BASE_URL +:+ train_url) = Fetched status_code soup ∧
           (400 ≤ status_code < 600)%Z)
  | Ok (Success rows) =>
      ∃ fields v status_code soup,
        data = JObj fields ∧ fields !! "train_url" = Some v ∧
        let train_url := Text.strip (Json.str float_str repr v) in
        Text.is_prefix timetable_marker train_url = true ∧
        get (BASE_URL +:+ train_url) = Fetched status_code soup ∧
        ¬ (400 ≤ status_code < 600)%Z ∧
        rows = (select_stop_markers soup ≫= stop_row_of ∘ stop_cells)
  end.
Proof.
  unfold timetable_handler.
  split; [by intros ->%required_field_breaks|].
  split; [by intros ->%required_field_lacks|].
  split.
  { intros fields v -> Hv Hbad.
    rewrite (required_field_object _ _ _ Hv).
    unfold mbind, result_bind. cbv zeta. by rewrite Hbad. }
  pose proof (required_field_cases data "train_url") as Hcases.
  destruct (required_field float_str repr data "train_url") as [[u|]|];
    unfold mbind, result_bind; cbv beta iota zeta; [|by auto|done].
  destruct Hcases as (fields & v & -> & Hv & ->).
  destruct (Text.is_prefix timetable_marker
              (Text.strip (Json.str float_str repr v))) eqn:Ep;
    cbn [negb]; cbv iota.
  - pose proof (scrape_cases get
                  (BASE_URL +:+ Text.strip (Json.str float_str repr v))
                  timetable _ timetable_never_raises) as Hs.
    destruct (scrape _ _ _) as [rows|?|].
    + destruct Hs as (st & soup & ? & ? & ?). by exists fields, v, st, soup.
    + done.
    + by exists fields, v.
  - split; [done|]. split; [|done]. right. by exists fields, v.
Qed.

End HandlerProperties.

Lemma departures_links_pass_timetable_check_witness :
  (Sample.deccan_queen_routed
     ∈ departures "57" (normalize_dest None) Sample.departures_page ∧
   dr_train_url Sample.deccan_queen_routed
   = Some "/train/timetable/deccan-queen-12124/1042/57/0" ∧
   required_field Fixture.sample_float_str Fixture.sample_repr
     Fixture.link_body "train_url"
   = Ok (Some "/train/timetable/deccan-queen-12124/1042/57/0")) ∧
  timetable_handler Fixture.sample_float_str Fixture.sample_repr
    Fixture.link_body (fun _ => Fetched 200 Sample.timetable_page)
  = Ok (scrape (fun _ => Fetched 200 Sample.timetable_page)
          (BASE_URL +:+ "/train/timetable/deccan-queen-12124/1042/57/0")
          timetable).
Proof.
  assert (H1 : Sample.deccan_queen_routed
               ∈ departures "57" (normalize_dest None) Sample.departures_page)
    by (vm_compute; constructor).
  assert (H2 : dr_train_url Sample.deccan_queen_routed
               = Some "/train/timetable/deccan-queen-12124/1042/57/0")
    by reflexivity.
  assert (H3 : required_field Fixture.sample_float_str Fixture.sample_repr
                 Fixture.link_body "train_url"
               = Ok (Some "/train/timetable/deccan-queen-12124/1042/57/0"))
    by (vm_compute; reflexivity).
  split; [by repeat split|].
  exact (departures_links_pass_timetable_check Fixture.sample_float_str
           Fixture.sample_repr None "57" Sample.departures_page
           Sample.deccan_queen_routed _ _ _ H1 H2 H3).
Defined.

(** A body that is the number 7, and one that is the list of the
    string [q]: the handler raises, whatever the site would answer. *)
Example station_search_handler_number_body :
  station_search_handler Fixture.sample_float_str Fixture.sample_repr
    (JInt 7) (fun _ => Fetched 200 Sample.doc_single_pair) = Raised ∧
  station_search_handler Fixture.sample_float_str Fixture.sample_repr
    (JArr [JStr "q"]) (fun _ => Fetched 200 Sample.doc_single_pair) = Raised.
Proof. split; vm_compute; reflexivity. Qed.

(** ** Geocoding and points of interest, continued *)

Section GeoMore.

Context {F : Type} `{PyFloat F} (zero : F) (py_float : string -> option F).


Lemma join_comma_has_equals (parts : list string) :
  parts ≠ [] ->
  Forall (fun p => Text.all_chars not_equals p = false) parts ->
  Text.all_chars not_equals (join_comma parts) = false.
Proof.
  intros Hne Hall. destruct Hall as [|p rest Hp Hrest]; [done|].
  destruct rest as [|q rest]; [done|].
  cbn [join_comma]. by rewrite all_chars_app, Hp.
Qed.

Lemma type_part_has_equals (k v : string) :
  Text.all_chars not_equals (k +:+ "=" +:+ v) = false.
Proof.
  rewrite all_chars_app.
  change ("=" +:+ v) with (String "=" v). cbn [Text.all_chars].
  by rewrite andb_false_r.
Qed.

(** X13. The type summary of a point of interest is [other] exactly
    when none of the seven keys of the priority list is tagged. *)
Theorem poi_type_other_iff (el : element (F := F)) (p : POI) :
  poi_of_element zero el = Some p ->
  (poi_type p = "other" ↔ ∀ k, k ∈ type_keys -> poi_tags p !! k = None).
Proof.
  unfold poi_of_element.
  set (tags := match el_tags el with Some tg => _ | None => _ end).
  set (part := fun k : string => (fun v : string => k +:+ "=" +:+ v) <$> tags !! k).
  set (parts := omap part type_keys).
  destruct (if bool_decide (el_type el = Some "node") then _ else _) as [[la lo]|];
    [|done].
  intros [= <-]. cbn [poi_type poi_tags].
  assert (Hall : Forall (fun p => Text.all_chars not_equals p = false) parts).
  { apply Forall_forall. intros x (k & _ & Hx)%list_elem_of_omap.
    unfold part in Hx. destruct (tags !! k) as [v|]; [|done].
    injection Hx as <-. apply type_part_has_equals. }
  assert (Hnil : parts = [] ↔ ∀ k, k ∈ type_keys -> tags !! k = None).
  { split.
    - intros Hp k Hk. destruct (tags !! k) as [v|] eqn:Hv; [|done].
      assert (Hin : k +:+ "=" +:+ v ∈ parts).
      { apply list_elem_of_omap. exists k. split; [done|]. unfold part. by rewrite Hv. }
      rewrite Hp in Hin. by apply elem_of_nil in Hin.
    - intros Hnone. destruct parts as [|p0 rest] eqn:E; [done|]. exfalso.
      assert (Hin : p0 ∈ parts) by (rewrite E; left).
      apply list_elem_of_omap in Hin as (k & Hk & Hp).
      unfold part in Hp. by rewrite (Hnone k Hk) in Hp. }
  rewrite <- Hnil. clearbody parts. destruct parts as [|p0 rest]; [done|].
  split; [|done]. intros Hother. exfalso.
  pose proof (join_comma_has_equals (p0 :: rest) ltac:(done) Hall) as Hj.
  by rewrite Hother in Hj.
Qed.

(** [float(hit[k])] raises exactly when the hit is no dict, the key is
    missing, or [float] does not take the value. *)
Lemma float_field_raised (hit : json F) (k : string) :
  float_field py_float hit k = Raised ->
  (∀ fields, hit ≠ JObj fields) ∨
  ∃ fields, hit = JObj fields ∧
    (fields !! k = None ∨
     ∃ v, fields !! k = Some v ∧ Json.to_float py_float v = Raised).
Proof.
  unfold float_field. destruct hit as [| | | | | |fields]; try (by left).
  intros Hr. right. exists fields. split; [done|]. simpl in Hr.
  destruct (fields !! k) as [v|]; [|by left]. right. by exists v.
Qed.

Lemma float_field_ok (hit : json F) (k : string) (x : F) :
  float_field py_float hit k = Ok x ->
  ∃ fields v, hit = JObj fields ∧ fields !! k = Some v ∧
              Json.to_float py_float v = Ok x.
Proof.
  unfold float_field. destruct hit as [| | | | | |fields]; try done.
  simpl. destruct (fields !! k) as [v|] eqn:Hv; [|done]. simpl.
  intros Hx. by exists fields, v.
Qed.

(** X11. What [geocode_station] gives, read backwards. Coordinates come
    only from a reply with status 200 whose body is a list that starts
    with a dict, and are [float] of its [lat] and [lon]. [None] comes
    only from another status or from a body that is falsy: [null],
    [false], a zero, or an empty string, list or dict. It raises only
    on a transport failure, on a body that is not JSON, on a truthy
    body that is no list, or when the first item of the list is no
    dict, lacks [lat] or [lon], or holds a value there that [float]
    does not take. *)
Theorem geocode_station_result (r : http_outcome (json F)) :
  match geocode_station py_float r with
  | Ok (Some c) =>
      ∃ fields rest la lo,
        r = Response 200 (Some (JArr (JObj fields :: rest))) ∧
        fields !! "lat" = Some la ∧ Json.to_float py_float la = Ok (lat c) ∧
        fields !! "lon" = Some lo ∧ Json.to_float py_float lo = Ok (lon c)
  | Ok None =>
      (∃ status_code body, r = Response status_code body ∧ status_code ≠ 200%Z) ∨
      (∃ arr, r = Response 200 (Some arr) ∧ Json.truthy arr = false)
  | Raised =>
      r = Transport_failure ∨ r = Response 200 None ∨
      ∃ arr, r = Response 200 (Some arr) ∧ Json.truthy arr = true ∧
        ((∀ items, arr ≠ JArr items) ∨
         ∃ hit rest, arr = JArr (hit :: rest) ∧
           ((∀ fields, hit ≠ JObj fields) ∨
            ∃ fields k, hit = JObj fields ∧ k ∈ ["lat"; "lon"] ∧
              (fields !! k = None ∨
               ∃ v, fields !! k = Some v ∧ Json.to_float py_float v = Raised)))
  end.
Proof.
  destruct r as [|st body]; simpl; [by left|].
  destruct (Z.eqb_spec st 200) as [->|Hst]; simpl; [|left; by exists st, body].
  destruct body as [arr|]; [|by auto].
  destruct (Json.truthy arr) eqn:Ht; simpl; [|right; by exists arr].
  destruct arr as [|b|n|x|s|[|hit rest]|fields]; simpl;
    try (right; right; eexists; split; [done|]; split; [done|]; by left).
  - destruct s as [|c s]; [done|]. simpl.
    right. right. eexists. split; [done|]. split; [done|]. by left.
  - destruct (float_field py_float hit "lat") as [x|] eqn:Hx; simpl.
    + destruct (float_field py_float hit "lon") as [y|] eqn:Hy; simpl.
      * apply float_field_ok in Hx as (fields & la & -> & Hla & Ela).
        apply float_field_ok in Hy as (fields' & lo & [= <-] & Hlo & Elo).
        by exists fields, rest, la, lo.
      * right. right. eexists. split; [done|]. split; [done|]. right.
        exists hit, rest. split; [done|].
        apply float_field_raised in Hy as [Hno|(fields & -> & Hk)]; [by left|].
        right. exists fields, "lon". split; [done|]. split; [|done].
        right. by left.
    + right. right. eexists. split; [done|]. split; [done|]. right.
      exists hit, rest. split; [done|].
      apply float_field_raised in Hx as [Hno|(fields & -> & Hk)]; [by left|].
      right. exists fields, "lat". split; [done|]. split; [|done]. by left.
Qed.

End GeoMore.

Lemma poi_type_other_iff_witness :
  poi_of_element 0%Qc Sample.hospital_node = Some Sample.hospital_poi ∧
  (poi_type Sample.hospital_poi = "other" ↔
   ∀ k, k ∈ type_keys -> poi_tags Sample.hospital_poi !! k = None).
Proof.
  assert (H : poi_of_element 0%Qc Sample.hospital_node = Some Sample.hospital_poi)
    by (vm_compute; reflexivity).
  split; [exact H|].
  exact (poi_type_other_iff 0%Qc Sample.hospital_node Sample.hospital_poi H).
Defined.

(** ** The map endpoint *)

Section StationMapProperties.

Context {F : Type} `{PyFloat F} (zero : F) (py_float : string -> option F).
Context (float_str : F -> string) (py_int : string -> option Z).

Lemma locates_check args :
  negb (Text.truthy (arg args "station"))
  && (negb (Text.truthy (arg args "lat")) || negb (Text.truthy (arg args "lon")))
  = negb (locates args).
Proof.
  unfold locates.
  by destruct (Text.truthy (arg args "station")), (Text.truthy (arg args "lat")),
    (Text.truthy (arg args "lon")).
Qed.

Lemma station_map_bad_radius args now geocoder overpass
    (cache : gmap string (Qc * map_result)) :
  py_int (default "700" (args !! "radius")) = None ->
  station_map zero py_float float_str py_int args now geocoder overpass cache
  = Raised.
Proof. unfold station_map. by intros ->. Qed.

Lemma station_map_no_place args now geocoder overpass
    (cache : gmap string (Qc * map_result)) radius :
  py_int (default "700" (args !! "radius")) = Some radius ->
  locates args = false ->
  station_map zero py_float float_str py_int args now geocoder overpass cache
  = Ok (Failure 400 "Provide station name or lat & lon", cache).
Proof.
  unfold station_map. intros -> Hloc. simpl. by rewrite locates_check, Hloc.
Qed.

Lemma station_map_hit args now geocoder overpass
    (cache : gmap string (Qc * map_result)) radius ts hit :
  py_int (default "700" (args !! "radius")) = Some radius ->
  locates args = true ->
  cache !! request_key args radius = Some (ts, hit) ->
  (t_read now - ts ≤ CACHE_TTL_SECONDS)%Qc ->
  station_map zero py_float float_str py_int args now geocoder overpass cache
  = Ok (Success (mark_cached hit),
        <[request_key args radius := (ts, mark_cached hit)]> cache).
Proof.
  intros Hr Hloc Hk Hage. unfold station_map. rewrite Hr. simpl.
  rewrite locates_check, Hloc. simpl.
  unfold cache_get. rewrite Hk.
  rewrite bool_decide_eq_false_2 by (by apply Qcle_not_lt).
  do 2 f_equal. apply map_eq. intros k.
  destruct (decide (k = request_key args radius)) as [->|Hne].
  - by rewrite lookup_alter_eq, lookup_insert_eq, Hk.
  - by rewrite lookup_alter_ne, lookup_insert_ne.
Qed.

(** What the [try] block does to the cache: nothing, or one write. *)
Lemma query_overpass_cases now key center radius overpass
    (cache : gmap string (Qc * map_result)) :
  match query_overpass zero float_str now key center radius overpass cache with
  | (Success r, cache') =>
      cache' = cache_set (t_write now) key r cache ∧
      mr_cached r = false ∧ mr_pois_count r = length (mr_pois r) ∧
      mr_center r = center ∧ mr_radius r = radius
  | (_, cache') => cache' = cache
  end.
Proof.
  unfold query_overpass. destruct (overpass _) as [|st body]; [done|].
  destruct (negb (st =? 200)%Z); [done|]. by destruct body.
Qed.

(** The three ways a request ends without raising. *)
Lemma station_map_inv args now geocoder overpass
    (cache cache' : gmap string (Qc * map_result)) radius rep :
  py_int (default "700" (args !! "radius")) = Some radius ->
  station_map zero py_float float_str py_int args now geocoder overpass cache
  = Ok (rep, cache') ->
  let key := request_key args radius in
  (locates args = false ∧ cache' = cache ∧ ∃ e, rep = Failure 400 e) ∨
  (locates args = true ∧
   ∃ ts hit, cache !! key = Some (ts, hit) ∧
     (t_read now - ts ≤ CACHE_TTL_SECONDS)%Qc ∧
     rep = Success (mark_cached hit) ∧
     cache' = <[key := (ts, mark_cached hit)]> cache) ∨
  (locates args = true ∧
   (cache_get (t_read now) key cache).1 = None ∧
   ((cache' = (cache_get (t_read now) key cache).2 ∧ ∃ st e, rep = Failure st e) ∨
    ∃ center,
      (rep, cache')
      = query_overpass zero float_str now key center radius overpass
          (cache_get (t_read now) key cache).2)).
Proof.
  intros Hr Hsm. cbv zeta.
  destruct (locates args) eqn:Hloc.
  - destruct (cache_get (t_read now) (request_key args radius) cache)
      as [[hit|] cache0] eqn:Hget.
    + right. left. split; [done|].
      unfold cache_get in Hget.
      destruct (cache !! request_key args radius) as [[ts v]|] eqn:Hk; [|done].
      case_bool_decide as Hlt; [done|]. injection Hget as <- <-.
      apply Qcnot_lt_le in Hlt.
      rewrite (station_map_hit _ _ _ _ _ _ _ _ Hr Hloc Hk Hlt) in Hsm.
      injection Hsm as <- <-. by exists ts, v.
    + right. right. split; [done|]. split; [done|]. simpl.
      unfold station_map in Hsm. rewrite Hr in Hsm. simpl in Hsm.
      rewrite locates_check, Hloc in Hsm. simpl in Hsm. rewrite Hget in Hsm.
      destruct (resolve_center _ _ _ _ _) as [[e|c]|]; simpl in Hsm; [| |done].
      * injection Hsm as <- <-. left. split; [done|]. by eexists _, _.
      * injection Hsm as Hsm. right. by exists c.
  - left. split; [done|].
    rewrite (station_map_no_place _ _ _ _ _ radius Hr Hloc) in Hsm.
    injection Hsm as <- <-. split; [done|]. by eexists.
Qed.

(** A stored fresh result is what a later request under the same key
    gets. *)
Lemma station_map_hit_after_store args args' now now' geocoder geocoder'
    overpass overpass' (cache cache' : gmap string (Qc * map_result)) radius r :
  py_int (default "700" (args !! "radius")) = Some radius ->
  py_int (default "700" (args' !! "radius")) = Some radius ->
  station_map zero py_float float_str py_int args now geocoder overpass cache
  = Ok (Success r, cache') ->
  mr_cached r = false ->
  locates args' = true ->
  request_key args' radius = request_key args radius ->
  (t_read now' - t_write now ≤ CACHE_TTL_SECONDS)%Qc ->
  station_map zero py_float float_str py_int args' now' geocoder' overpass' cache'
  = Ok (Success (mark_cached r),
        <[request_key args radius := (t_write now, mark_cached r)]> cache').
Proof.
  intros Hr Hr' Hsm Hfresh Hloc' Hkey Hage.
  assert (Hstored : cache' !! request_key args radius = Some (t_write now, r)).
  { destruct (station_map_inv _ _ _ _ _ _ _ _ Hr Hsm)
      as [(_ & _ & e & He)|[(_ & ts & hit & _ & _ & He & _)|(_ & _ & Hmiss)]].
    - done.
    - injection He as ->. done.
    - destruct Hmiss as [[_ (st & e & He)]|(center & Hq)]; [done|].
      pose proof (query_overpass_cases now (request_key args radius) center radius
                    overpass (cache_get (t_read now) (request_key args radius) cache).2)
        as Hcases.
      rewrite <- Hq in Hcases. destruct Hcases as (-> & _).
      unfold cache_set. apply lookup_insert_eq. }
  rewrite <- Hkey in Hstored |- *.
  by apply station_map_hit.
Qed.

(** X14. The radius is converted before anything is checked: a radius
    that is no integer makes the handler raise. With a radius, a request
    that names no station and lacks a latitude or a longitude is
    answered 400; the cache stays as it is and nothing is asked of the
    geocoder or of the spatial service. *)
Theorem station_map_rejects args now geocoder overpass
    (cache : gmap string (Qc * map_result)) :
  (py_int (default "700" (args !! "radius")) = None ->
   station_map zero py_float float_str py_int args now geocoder overpass cache
   = Raised) ∧
  (∀ radius, py_int (default "700" (args !! "radius")) = Some radius ->
   locates args = false ->
   ∀ now' geocoder' overpass',
     station_map zero py_float float_str py_int args now' geocoder' overpass' cache
     = Ok (Failure 400 "Provide station name or lat & lon", cache)).
Proof.
  split; [apply station_map_bad_radius|].
  intros radius Hr Hloc now' geocoder' overpass'. by eapply station_map_no_place.
Qed.

(** X15. A request whose key holds an entry at most six hours old is
    answered from the cache with the flag [cached] set, whatever the
    geocoder and the spatial service would do. The dictionary returned
    is the stored one, so the entry carries the flag from then on; its
    timestamp stays. *)
Theorem station_map_cache_hit args now geocoder overpass
    (cache : gmap string (Qc * map_result)) radius ts hit :
  py_int (default "700" (args !! "radius")) = Some radius ->
  locates args = true ->
  cache !! request_key args radius = Some (ts, hit) ->
  (t_read now - ts ≤ CACHE_TTL_SECONDS)%Qc ->
  station_map zero py_float float_str py_int args now geocoder overpass cache
  = Ok (Success (mark_cached hit),
        <[request_key args radius := (ts, mark_cached hit)]> cache).
Proof. apply station_map_hit. Qed.

(** X16. After a request was answered with a fresh result, the same
    request within six hours of the write gets that result back with
    the flag [cached] set, whatever the geocoder and the spatial service
    would do by then. *)
Theorem station_map_repeat_is_hit args now now' geocoder geocoder'
    overpass overpass' (cache cache' : gmap string (Qc * map_result)) radius r :
  py_int (default "700" (args !! "radius")) = Some radius ->
  station_map zero py_float float_str py_int args now geocoder overpass cache
  = Ok (Success r, cache') ->
  mr_cached r = false ->
  (t_read now' - t_write now ≤ CACHE_TTL_SECONDS)%Qc ->
  station_map zero py_float float_str py_int args now' geocoder' overpass' cache'
  = Ok (Success (mark_cached r),
        <[request_key args radius := (t_write now, mark_cached r)]> cache').
Proof.
  intros Hr Hsm Hfresh Hage.
  destruct (locates args) eqn:Hloc.
  - by eapply station_map_hit_after_store.
  - by rewrite (station_map_no_place _ _ _ _ _ radius Hr Hloc) in Hsm.
Qed.

(** X17. Station names are keyed in lower case: after a fresh result
    for one spelling of a station, a request within six hours for a
    spelling that differs in case only, with the same radius, is
    answered from the cache with the result of the first spelling. *)
Theorem station_map_station_case_insensitive args args' now now'
    geocoder geocoder' overpass overpass'
    (cache cache' : gmap string (Qc * map_result)) radius r :
  py_int (default "700" (args !! "radius")) = Some radius ->
  py_int (default "700" (args' !! "radius")) = Some radius ->
  arg args "station" ≠ EmptyString ->
  arg args' "station" ≠ EmptyString ->
  Text.lower (arg args' "station") = Text.lower (arg args "station") ->
  station_map zero py_float float_str py_int args now geocoder overpass cache
  = Ok (Success r, cache') ->
  mr_cached r = false ->
  (t_read now' - t_write now ≤ CACHE_TTL_SECONDS)%Qc ->
  station_map zero py_float float_str py_int args' now' geocoder' overpass' cache'
  = Ok (Success (mark_cached r),
        <[request_key args radius := (t_write now, mark_cached r)]> cache').
Proof.
  intros Hr Hr' Hs Hs' Hlow Hsm Hfresh Hage.
  apply truthy_nonempty in Hs, Hs'.
  eapply station_map_hit_after_store; try done.
  - unfold locates. by rewrite Hs'.
  - unfold cache_key_of. by rewrite Hs, Hs', Hlow.
Qed.

(** X18. A request touches no entry of the cache but its own, and a
    request that is not answered with a result adds nothing: the cache
    after it is the cache before it, at most without the expired entry
    of its own key. *)
Theorem station_map_touches_own_entry args now geocoder overpass
    (cache cache' : gmap string (Qc * map_result)) radius rep :
  py_int (default "700" (args !! "radius")) = Some radius ->
  station_map zero py_float float_str py_int args now geocoder overpass cache
  = Ok (rep, cache') ->
  (∀ k, k ≠ request_key args radius -> cache' !! k = cache !! k) ∧
  ((∀ r, rep ≠ Success r) -> cache' ⊆ cache).
Proof.
  intros Hr Hsm.
  assert (Hget : ∀ k, k ≠ request_key args radius ->
            (cache_get (t_read now) (request_key args radius) cache).2 !! k
            = cache !! k).
  { intros k Hk. unfold cache_get.
    destruct (cache !! request_key args radius) as [[ts w]|]; [|done].
    case_bool_decide; [|done]. simpl. by rewrite lookup_delete_ne. }
  assert (Hsub : (cache_get (t_read now) (request_key args radius) cache).2 ⊆ cache).
  { unfold cache_get.
    destruct (cache !! request_key args radius) as [[ts w]|]; [|done].
    case_bool_decide; [|done]. apply delete_subseteq. }
  destruct (station_map_inv _ _ _ _ _ _ _ _ Hr Hsm)
    as [(_ & -> & _)|[(_ & ts & hit & Hk & _ & -> & ->)|(_ & _ & Hmiss)]].
  - done.
  - split; [intros k Hne; by rewrite lookup_insert_ne|]. intros Hrep.
    by destruct (Hrep (mark_cached hit)).
  - destruct Hmiss as [[-> _]|(center & Hq)]; [done|].
    pose proof (query_overpass_cases now (request_key args radius) center radius
                  overpass (cache_get (t_read now) (request_key args radius) cache).2)
      as Hcases.
    rewrite <- Hq in Hcases. destruct rep as [r| |].
    + destruct Hcases as (-> & _). split.
      * intros k Hne. unfold cache_set. rewrite lookup_insert_ne by done. by apply Hget.
      * intros Hrep. by destruct (Hrep r).
    + by subst cache'.
    + by subst cache'.
Qed.

(** X19. The count of a result is the length of its list of points: if
    that holds for every entry of the cache, it holds for every entry
    after a request and for the result the request returns, fresh or
    cached. *)
Theorem station_map_keeps_counts args now geocoder overpass
    (cache cache' : gmap string (Qc * map_result)) rep :
  map_Forall (fun _ entry => mr_pois_count entry.2 = length (mr_pois entry.2)) cache ->
  station_map zero py_float float_str py_int args now geocoder overpass cache
  = Ok (rep, cache') ->
  map_Forall (fun _ entry => mr_pois_count entry.2 = length (mr_pois entry.2)) cache' ∧
  (∀ r, rep = Success r -> mr_pois_count r = length (mr_pois r)).
Proof.
  intros Hinv Hsm.
  destruct (py_int (default "700" (args !! "radius"))) as [radius|] eqn:Hr;
    [|by rewrite (station_map_bad_radius _ _ _ _ _ Hr) in Hsm].
  assert (Hget : map_Forall
            (fun _ entry => mr_pois_count entry.2 = length (mr_pois entry.2))
            (cache_get (t_read now) (request_key args radius) cache).2).
  { unfold cache_get.
    destruct (cache !! request_key args radius) as [[ts w]|]; [|done].
    case_bool_decide; [|done]. by apply map_Forall_delete. }
  destruct (station_map_inv _ _ _ _ _ _ _ _ Hr Hsm)
    as [(_ & -> & e & ->)|[(_ & ts & hit & Hk & _ & -> & ->)|(_ & _ & Hmiss)]].
  - done.
  - pose proof (Hinv _ _ Hk) as Hhit. simpl in Hhit. split.
    + by apply map_Forall_insert_2.
    + by intros r [= <-].
  - destruct Hmiss as [[-> (st & e & ->)]|(center & Hq)]; [done|].
    pose proof (query_overpass_cases now (request_key args radius) center radius
                  overpass (cache_get (t_read now) (request_key args radius) cache).2)
      as Hcases.
    rewrite <- Hq in Hcases. destruct rep as [r| |].
    + destruct Hcases as (-> & _ & Hcount & _). split.
      * by apply map_Forall_insert_2.
      * by intros ? [= <-].
    + by subst cache'.
    + by subst cache'.
Qed.

End StationMapProperties.

Example station_map_first_request :
  station_map 0%Qc Fixture.sample_float Fixture.sample_float_str
    Fixture.sample_int Fixture.args_pune Fixture.clock_first
    Fixture.geocoder Fixture.overpass ∅
  = Ok (Success Fixture.pune_result, Fixture.cache_after_first).
Proof. vm_compute. reflexivity. Qed.

Lemma station_map_rejects_witness :
  (Fixture.sample_int (default "700" ((∅ : gmap string string) !! "radius"))
   = Some 700%Z ∧ locates ∅ = false) ∧
  station_map 0%Qc Fixture.sample_float Fixture.sample_float_str
    Fixture.sample_int ∅ Fixture.clock_later Fixture.geocoder_down
    Fixture.overpass_down Fixture.cache_after_first
  = Ok (Failure 400 "Provide station name or lat & lon", Fixture.cache_after_first).
Proof.
  assert (H1 : Fixture.sample_int
                 (default "700" ((∅ : gmap string string) !! "radius"))
               = Some 700%Z) by reflexivity.
  assert (H2 : locates ∅ = false) by reflexivity.
  split; [by split|].
  exact (proj2 (station_map_rejects 0%Qc Fixture.sample_float
                  Fixture.sample_float_str Fixture.sample_int ∅
                  Fixture.clock_first Fixture.geocoder Fixture.overpass
                  Fixture.cache_after_first)
           700%Z H1 H2 Fixture.clock_later Fixture.geocoder_down
           Fixture.overpass_down).
Defined.

Lemma station_map_cache_hit_witness :
  (Fixture.sample_int (default "700" (Fixture.args_pune !! "radius")) = Some 700%Z ∧
   locates Fixture.args_pune = true ∧
   Fixture.cache_after_first !! request_key Fixture.args_pune 700
   = Some (Q2Qc 102, Fixture.pune_result) ∧
   (t_read Fixture.clock_later - Q2Qc 102 ≤ CACHE_TTL_SECONDS)%Qc) ∧
  station_map 0%Qc Fixture.sample_float Fixture.sample_float_str
    Fixture.sample_int Fixture.args_pune Fixture.clock_later
    Fixture.geocoder_down Fixture.overpass_down Fixture.cache_after_first
  = Ok (Success (mark_cached Fixture.pune_result),
        <[request_key Fixture.args_pune 700
          := (Q2Qc 102, mark_cached Fixture.pune_result)]>
          Fixture.cache_after_first).
Proof.
  assert (H1 : Fixture.sample_int (default "700" (Fixture.args_pune !! "radius"))
               = Some 700%Z) by reflexivity.
  assert (H2 : locates Fixture.args_pune = true) by reflexivity.
  assert (H3 : Fixture.cache_after_first !! request_key Fixture.args_pune 700
               = Some (Q2Qc 102, Fixture.pune_result))
    by (vm_compute; reflexivity).
  assert (H4 : (t_read Fixture.clock_later - Q2Qc 102 ≤ CACHE_TTL_SECONDS)%Qc)
    by (by vm_compute).
  split; [by repeat split|].
  exact (station_map_cache_hit 0%Qc Fixture.sample_float Fixture.sample_float_str
           Fixture.sample_int Fixture.args_pune Fixture.clock_later
           Fixture.geocoder_down Fixture.overpass_down Fixture.cache_after_first
           700%Z (Q2Qc 102) Fixture.pune_result H1 H2 H3 H4).
Defined.

Lemma station_map_repeat_is_hit_witness :
  (Fixture.sample_int (default "700" (Fixture.args_pune !! "radius")) = Some 700%Z ∧
   station_map 0%Qc Fixture.sample_float Fixture.sample_float_str
     Fixture.sample_int Fixture.args_pune Fixture.clock_first
     Fixture.geocoder Fixture.overpass ∅
   = Ok (Success Fixture.pune_result, Fixture.cache_after_first) ∧
   mr_cached Fixture.pune_result = false ∧
   (t_read Fixture.clock_later - t_write Fixture.clock_first
    ≤ CACHE_TTL_SECONDS)%Qc) ∧
  station_map 0%Qc Fixture.sample_float Fixture.sample_float_str
    Fixture.sample_int Fixture.args_pune Fixture.clock_later
    Fixture.geocoder_down Fixture.overpass_down Fixture.cache_after_first
  = Ok (Success (mark_cached Fixture.pune_result),
        <[request_key Fixture.args_pune 700
          := (t_write Fixture.clock_first, mark_cached Fixture.pune_result)]>
          Fixture.cache_after_first).
Proof.
  assert (H1 : Fixture.sample_int (default "700" (Fixture.args_pune !! "radius"))
               = Some 700%Z) by reflexivity.
  assert (H2 : station_map 0%Qc Fixture.sample_float Fixture.sample_float_str
                 Fixture.sample_int Fixture.args_pune Fixture.clock_first
                 Fixture.geocoder Fixture.overpass ∅
               = Ok (Success Fixture.pune_result, Fixture.cache_after_first))
    by (vm_compute; reflexivity).
  assert (H3 : mr_cached Fixture.pune_result = false) by reflexivity.
  assert (H4 : (t_read Fixture.clock_later - t_write Fixture.clock_first
                ≤ CACHE_TTL_SECONDS)%Qc) by (by vm_compute).
  split; [by repeat split|].
  exact (station_map_repeat_is_hit 0%Qc Fixture.sample_float
           Fixture.sample_float_str Fixture.sample_int Fixture.args_pune
           Fixture.clock_first Fixture.clock_later Fixture.geocoder
           Fixture.geocoder_down Fixture.overpass Fixture.overpass_down
           ∅ Fixture.cache_after_first 700%Z Fixture.pune_result H1 H2 H3 H4).
Defined.

Lemma station_map_station_case_insensitive_witness :
  (Fixture.sample_int (default "700" (Fixture.args_pune !! "radius")) = Some 700%Z ∧
   Fixture.sample_int (default "700" (Fixture.args_pune_upper !! "radius"))
   = Some 700%Z ∧
   arg Fixture.args_pune "station" ≠ EmptyString ∧
   arg Fixture.args_pune_upper "station" ≠ EmptyString ∧
   Text.lower (arg Fixture.args_pune_upper "station")
   = Text.lower (arg Fixture.args_pune "station") ∧
   station_map 0%Qc Fixture.sample_float Fixture.sample_float_str
     Fixture.sample_int Fixture.args_pune Fixture.clock_first
     Fixture.geocoder Fixture.overpass ∅
   = Ok (Success Fixture.pune_result, Fixture.cache_after_first) ∧
   mr_cached Fixture.pune_result = false ∧
   (t_read Fixture.clock_later - t_write Fixture.clock_first
    ≤ CACHE_TTL_SECONDS)%Qc) ∧
  station_map 0%Qc Fixture.sample_float Fixture.sample_float_str
    Fixture.sample_int Fixture.args_pune_upper Fixture.clock_later
    Fixture.geocoder_down Fixture.overpass_down Fixture.cache_after_first
  = Ok (Success (mark_cached Fixture.pune_result),
        <[request_key Fixture.args_pune 700
          := (t_write Fixture.clock_first, mark_cached Fixture.pune_result)]>
          Fixture.cache_after_first).
Proof.
  assert (H1 : Fixture.sample_int (default "700" (Fixture.args_pune !! "radius"))
               = Some 700%Z) by reflexivity.
  assert (H1' : Fixture.sample_int
                  (default "700" (Fixture.args_pune_upper !! "radius"))
                = Some 700%Z) by reflexivity.
  assert (Hs : arg Fixture.args_pune "station" ≠ EmptyString)
    by (vm_compute; discriminate).
  assert (Hs' : arg Fixture.args_pune_upper "station" ≠ EmptyString)
    by (vm_compute; discriminate).
  assert (Hl : Text.lower (arg Fixture.args_pune_upper "station")
               = Text.lower (arg Fixture.args_pune "station"))
    by (vm_compute; reflexivity).
  assert (H2 : station_map 0%Qc Fixture.sample_float Fixture.sample_float_str
                 Fixture.sample_int Fixture.args_pune Fixture.clock_first
                 Fixture.geocoder Fixture.overpass ∅
               = Ok (Success Fixture.pune_result, Fixture.cache_after_first))
    by (vm_compute; reflexivity).
  assert (H3 : mr_cached Fixture.pune_result = false) by reflexivity.
  assert (H4 : (t_read Fixture.clock_later - t_write Fixture.clock_first
                ≤ CACHE_TTL_SECONDS)%Qc) by (by vm_compute).
  split; [by repeat split|].
  exact (station_map_station_case_insensitive 0%Qc Fixture.sample_float
           Fixture.sample_float_str Fixture.sample_int Fixture.args_pune
           Fixture.args_pune_upper Fixture.clock_first Fixture.clock_later
           Fixture.geocoder Fixture.geocoder_down Fixture.overpass
           Fixture.overpass_down ∅ Fixture.cache_after_first 700%Z
           Fixture.pune_result H1 H1' Hs Hs' Hl H2 H3 H4).
Defined.

Lemma station_map_touches_own_entry_witness :
  (Fixture.sample_int (default "700" (Fixture.args_pune !! "radius")) = Some 700%Z ∧
   station_map 0%Qc Fixture.sample_float Fixture.sample_float_str
     Fixture.sample_int Fixture.args_pune Fixture.clock_first
     Fixture.geocoder Fixture.overpass ∅
   = Ok (Success Fixture.pune_result, Fixture.cache_after_first) ∧
   "coords:1:2:700" ≠ request_key Fixture.args_pune 700) ∧
  Fixture.cache_after_first !! "coords:1:2:700"
  = (∅ : gmap string (Qc * map_result)) !! "coords:1:2:700".
Proof.
  assert (H1 : Fixture.sample_int (default "700" (Fixture.args_pune !! "radius"))
               = Some 700%Z) by reflexivity.
  assert (H2 : station_map 0%Qc Fixture.sample_float Fixture.sample_float_str
                 Fixture.sample_int Fixture.args_pune Fixture.clock_first
                 Fixture.geocoder Fixture.overpass ∅
               = Ok (Success Fixture.pune_result, Fixture.cache_after_first))
    by (vm_compute; reflexivity).
  assert (H3 : "coords:1:2:700" ≠ request_key Fixture.args_pune 700)
    by (vm_compute; discriminate).
  split; [by repeat split|].
  exact (proj1 (station_map_touches_own_entry 0%Qc Fixture.sample_float
                  Fixture.sample_float_str Fixture.sample_int Fixture.args_pune
                  Fixture.clock_first Fixture.geocoder Fixture.overpass
                  ∅ Fixture.cache_after_first 700%Z _ H1 H2)
           "coords:1:2:700" H3).
Defined.

Lemma station_map_keeps_counts_witness :
  (map_Forall (fun _ entry => mr_pois_count entry.2 = length (mr_pois entry.2))
     (∅ : gmap string (Qc * map_result (F := Qc))) ∧
   station_map 0%Qc Fixture.sample_float Fixture.sample_float_str
     Fixture.sample_int Fixture.args_pune Fixture.clock_first
     Fixture.geocoder Fixture.overpass ∅
   = Ok (Success Fixture.pune_result, Fixture.cache_after_first)) ∧
  map_Forall (fun _ entry => mr_pois_count entry.2 = length (mr_pois entry.2))
    Fixture.cache_after_first.
Proof.
  assert (H1 : map_Forall
                 (fun _ entry => mr_pois_count entry.2 = length (mr_pois entry.2))
                 (∅ : gmap string (Qc * map_result (F := Qc))))
    by apply map_Forall_empty.
  assert (H2 : station_map 0%Qc Fixture.sample_float Fixture.sample_float_str
                 Fixture.sample_int Fixture.args_pune Fixture.clock_first
                 Fixture.geocoder Fixture.overpass ∅
               = Ok (Success Fixture.pune_result, Fixture.cache_after_first))
    by (vm_compute; reflexivity).
  split; [by split|].
  exact (proj1 (station_map_keeps_counts 0%Qc Fixture.sample_float
                  Fixture.sample_float_str Fixture.sample_int Fixture.args_pune
                  Fixture.clock_first Fixture.geocoder Fixture.overpass
                  ∅ Fixture.cache_after_first _ H1 H2)).
Defined.

(** ** The AI endpoint *)

Lemma gemini_api_key_set (env : gmap string string) :
  truthy_opt (gemini_api_key env)
  = truthy_opt (env !! "GEMINI_API_KEY") || truthy_opt (env !! "GENAI_API_KEY")
    || truthy_opt (env !! "GOOGLE_API_KEY").
Proof.
  unfold gemini_api_key. cbv zeta beta.
  destruct (truthy_opt (env !! "GEMINI_API_KEY")) eqn:E1; simpl.
  - by rewrite E1, E1.
  - destruct (truthy_opt (env !! "GENAI_API_KEY")) eqn:E2; simpl; by rewrite ?E2.
Qed.

(** X21. The AI client counts as configured exactly when the library
    was imported and at least one of the three key variables is set to
    a non-empty value; a variable that is set but empty does not
    count. *)
Theorem ai_configured_iff (env : gmap string string) (has_genai : bool) :
  ai_configured env has_genai = true ↔
  has_genai = true ∧
  ∃ k v, k ∈ ["GEMINI_API_KEY"; "GENAI_API_KEY"; "GOOGLE_API_KEY"] ∧
         env !! k = Some v ∧ v ≠ EmptyString.
Proof.
  unfold ai_configured.
  rewrite andb_true_iff, gemini_api_key_set, !orb_true_iff, !truthy_opt_Some.
  split.
  - intros [[[(v & ? & ?)|(v & ? & ?)]|(v & ? & ?)] ->]; (split; [done|]).
    + exists "GEMINI_API_KEY", v. split; [by left|done].
    + exists "GENAI_API_KEY", v. split; [right; by left|done].
    + exists "GOOGLE_API_KEY", v. split; [right; right; by left|done].
  - intros [-> (k & v & Hk & Hv & Hne)]. split; [|done].
    apply elem_of_cons in Hk as [->|Hk]; [left; left; by exists v|].
    apply elem_of_cons in Hk as [->|Hk]; [left; right; by exists v|].
    apply list_elem_of_singleton in Hk as ->. right. by exists v.
Qed.

(** X20. The guard of the AI handler stands before its [try] block
    and before the check of the configuration: a body that is a truthy
    number or [bool], a string in which [query] occurs or a list with
    the string [query] makes the handler raise, and a body that is
    falsy, has no [query] or is an object with a blank [query] is
    answered 400, with or without a client. An object with another
    [query] is answered 502 when no client is configured. The model is
    called in none of these cases. With a client, the reply is the 500
    one exactly when the call raises or reading the text of the
    response raises, and otherwise 200 with the text taken from the
    response. *)
Theorem ask_ai_replies {F : Type} `{PyFloat F} (float_str : F -> string)
    (repr : json F -> string) env has_genai (data : json F) generate :
  (breaks_guard "query" data ->
   ask_ai float_str repr env has_genai data generate = Raised) ∧
  (lacks_field "query" data ->
   ask_ai float_str repr env has_genai data generate
   = Ok (Failure 400 "JSON must contain 'query'")) ∧
  (∀ fields v, data = JObj fields -> fields !! "query" = Some v ->
     Text.strip (Json.str float_str repr v) = EmptyString ->
     ask_ai float_str repr env has_genai data generate
     = Ok (Failure 400 "query cannot be empty")) ∧
  match ask_ai float_str repr env has_genai data generate with
  | Raised => breaks_guard "query" data
  | Ok (Failure status _) =>
      ((status = 400%Z ∧
        (lacks_field "query" data ∨
         ∃ fields v, data = JObj fields ∧ fields !! "query" = Some v ∧
           Text.strip (Json.str float_str repr v) = EmptyString)) ∨
       (status = 502%Z ∧ ai_configured env has_genai = false ∧
        ∃ fields v, data = JObj fields ∧ fields !! "query" = Some v ∧
          Text.strip (Json.str float_str repr v) ≠ EmptyString)) ∧
      ∀ generate', ask_ai float_str repr env has_genai data generate'
                   = ask_ai float_str repr env has_genai data generate
  | Ok Crash =>
      ai_configured env has_genai = true ∧
      ∃ fields v, data = JObj fields ∧ fields !! "query" = Some v ∧
        let query := Text.strip (Json.str float_str repr v) in
        query ≠ EmptyString ∧
        (generate query = Raised ∨
         ∃ text, generate query = Ok (Ai_object Text_raises text))
  | Ok (Success text) =>
      ai_configured env has_genai = true ∧
      ∃ fields v resp, data = JObj fields ∧ fields !! "query" = Some v ∧
        let query := Text.strip (Json.str float_str repr v) in
        query ≠ EmptyString ∧
        generate query = Ok resp ∧ response_text resp = Ok text
  end.
Proof.
  unfold ask_ai.
  split; [by intros ->%(required_field_breaks float_str repr)|].
  split; [by intros ->%(required_field_lacks float_str repr)|].
  split.
  { intros fields v -> Hv Hblank.
    rewrite (required_field_object float_str repr _ _ _ Hv). simpl.
    by rewrite Hblank. }
  pose proof (required_field_cases float_str repr data "query") as Hcases.
  destruct (required_field float_str repr data "query") as [[q|]|]; simpl;
    [|by auto|done].
  destruct Hcases as (fields & v & -> & Hv & ->).
  destruct (Text.truthy (Text.strip (Json.str float_str repr v))) eqn:Et; simpl.
  - apply truthy_nonempty in Et.
    destruct (ai_configured env has_genai) eqn:Hc; simpl.
    + destruct (generate (Text.strip (Json.str float_str repr v)))
        as [resp|] eqn:Hg; simpl.
      * destruct (response_text resp) as [text|] eqn:Ht.
        -- split; [done|]. by exists fields, v, resp.
        -- split; [done|]. exists fields, v. split; [done|]. split; [done|].
           split; [done|]. right.
           destruct resp as [[| |s] text|[c|] text]; try done.
           ++ by exists text.
           ++ simpl in Ht. by destruct c.
      * split; [done|]. exists fields, v. auto.
    + split; [|done]. right. split; [done|]. split; [done|]. by exists fields, v.
  - split; [|done]. left. split; [done|]. right. exists fields, v.
    split; [done|]. split; [done|]. by destruct (Text.strip _).
Qed.

(** ** The timetable anchor of a block *)

Lemma href_marker_has_href n :
  href_has_marker n = true -> Dom.has_attr "href" n = true.
Proof.
  unfold href_has_marker, Dom.attr_contains, Dom.has_attr.
  by destruct (Dom.attr "href" n).
Qed.

Lemma marked_anchors (l : list node) :
  List.filter href_has_marker
    (List.filter (fun d => Dom.is_tag "a" d && Dom.has_attr "href" d) l)
  = List.filter (fun n => Dom.is_tag "a" n && href_has_marker n) l.
Proof.
  induction l as [|x l IH]; [done|]. cbn [List.filter].
  destruct (Dom.is_tag "a" x) eqn:Ha; cbn [andb]; [|exact IH].
  destruct (href_has_marker x) eqn:Hm.
  - rewrite (href_marker_has_href x Hm). cbn [List.filter]. by rewrite Hm, IH.
  - destruct (Dom.has_attr "href" x); [|exact IH].
    cbn [List.filter]. by rewrite Hm.
Qed.

(** X22. The timetable anchor of a block is the first descendant [a]
    of the block, in page order, whose [href] contains
    [/train/timetable/], or none when there is no such anchor: the
    [select_one] fallback after the loop never finds an anchor that the
    loop did not. *)
Theorem find_name_anchor_first block :
  find_name_anchor block
  = head (List.filter (fun n => Dom.is_tag "a" n && href_has_marker n)
            (Dom.descendants block)).
Proof.
  unfold find_name_anchor, Dom.find_all_with_attr, Dom.select_one, Dom.select.
  rewrite marked_anchors. by destruct (head _).
Qed.
